(** * StreamFX 3D transform filter (source/filters/filter-transform.cpp)

    A shallow embedding of [transform_instance]: the settings migration, the
    parameter update, the per-tick mesh builder, the cache sizing policy and
    the render pass, followed by the properties proved about them.

    - [float_t] and [double_t] are IEEE 754 binary32 and binary64, computed
      with the reference operations of [SpecFloat];
    - [obs_data_t] is a finite map from key names to items that carry a user
      value and a default value;
    - the libobs matrix primitives are an interface ([Matrix4Ops]): the
      filter only calls them;
    - the graphics calls of the render pass are recorded as a trace. *)

From Stdlib Require Import ZArith Lia Bool QArith Qround.
From Stdlib Require Import Floats.SpecFloat.
From stdpp Require Import gmap strings list.

Open Scope Z_scope.

(** ** Floating point *)

(** [float_t]: IEEE 754 binary32, round to nearest even. *)
Module Float32.
Definition prec : Z := 24.
Definition emax : Z := 128.
Definition valid (x : spec_float) : bool := valid_binary prec emax x.
Definition add := SFadd prec emax.
Definition sub := SFsub prec emax.
Definition mul := SFmul prec emax.
Definition div := SFdiv prec emax.
Definition opp := SFopp.
(** [float_t(n)] for an integer [n]. *)
Definition of_Z (n : Z) : spec_float := binary_normalize prec emax n 0 false.
(** [static_cast<float_t>(d)] for a double [d]. *)
Definition of_double (d : spec_float) : spec_float :=
  match d with
  | S754_finite s m e => binary_round prec emax s m e
  | _ => d
  end.
Definition zero : spec_float := S754_zero false.
Definition one : spec_float := of_Z 1.
End Float32.

(** [double_t]: IEEE 754 binary64, round to nearest even. *)
Module Float64.
Definition prec : Z := 53.
Definition emax : Z := 1024.
Definition valid (x : spec_float) : bool := valid_binary prec emax x.
Definition mul := SFmul prec emax.
Definition div := SFdiv prec emax.
Definition ltb := SFltb.
(** [double_t(n)] for an integer [n]. *)
Definition of_Z (n : Z) : spec_float := binary_normalize prec emax n 0 false.
(** Truncation toward zero, the value of an integer cast where it is
    defined.  The cast of a NaN or an infinity is undefined in C++; the
    embedding gives 0 there. *)
Definition trunc (x : spec_float) : Z :=
  match x with
  | S754_finite s m e =>
      cond_Zopp s (match e with
                   | Z0 => Zpos m
                   | Zpos p => Zpos m * 2 ^ Zpos p
                   | Zneg p => Zpos m / 2 ^ Zpos p
                   end)
  | _ => 0
  end.
Definition one : spec_float := of_Z 1.
End Float64.

Abbreviation float_t := spec_float.
Abbreviation double_t := spec_float.

(** Wrap-around of the fixed-width unsigned and signed integer types. *)
Definition to_uint32 (n : Z) : Z := n mod 2 ^ 32.
Definition to_uint64 (n : Z) : Z := n mod 2 ^ 64.
Definition to_int64 (n : Z) : Z := (n + 2 ^ 63) mod 2 ^ 64 - 2 ^ 63.

(** Modelled from the spec: [S_PI] is a macro of a header that is not part of
    the sources; degrees become radians "via multiply-by-pi/180", so it is
    pi, here the binary64 number nearest to it. *)
Definition S_PI : double_t := S754_finite false 7074237752028440 (-51).

(** ** Vectors and vertices *)

Record vec3 := vec3_set { vx : float_t; vy : float_t; vz : float_t }.
Record vec4 := vec4_set { v4x : float_t; v4y : float_t; v4z : float_t; v4w : float_t }.

(** One vertex of the vertex buffer: the attributes the filter writes. *)
Record vertex := Vertex { position : vec3; color : Z; uv0 : vec4 }.

(** The libobs matrix primitives called by the mesh builder.  Each takes the
    source matrix and returns the destination matrix. *)
Class Matrix4Ops := {
  matrix4 : Type;
  matrix4_identity : matrix4;
  matrix4_rotate_aa4f : matrix4 -> float_t -> float_t -> float_t -> float_t -> matrix4;
  matrix4_translate3f : matrix4 -> float_t -> float_t -> float_t -> matrix4;
  vec3_transform : vec3 -> matrix4 -> vec3
}.

(** ** Settings: obs_data_t *)

Inductive obs_number :=
| num_int (i : Z)
| num_double (d : double_t).

Inductive obs_value :=
| val_number (n : obs_number)
| val_bool (b : bool).

Record obs_data_item := Item {
  item_user : option obs_value;
  item_default : option obs_value
}.

Abbreviation obs_data_t := (gmap string obs_data_item).

(** The value an item reads as: the user value, else the default value. *)
Definition get_item_data (it : obs_data_item) : option obs_value :=
  match item_user it with
  | Some v => Some v
  | None => item_default it
  end.

Definition obs_data_has_user_value (settings : obs_data_t) (name : string) : bool :=
  match settings !! name with
  | Some it => bool_decide (is_Some (item_user it))
  | None => false
  end.

Definition obs_data_get_int (settings : obs_data_t) (name : string) : Z :=
  match settings !! name ≫= get_item_data with
  | Some (val_number (num_int i)) => i
  | Some (val_number (num_double d)) => to_int64 (Float64.trunc d)
  | _ => 0
  end.

Definition obs_data_get_double (settings : obs_data_t) (name : string) : double_t :=
  match settings !! name ≫= get_item_data with
  | Some (val_number (num_int i)) => Float64.of_Z i
  | Some (val_number (num_double d)) => d
  | _ => S754_zero false
  end.

Definition obs_data_get_bool (settings : obs_data_t) (name : string) : bool :=
  match settings !! name ≫= get_item_data with
  | Some (val_bool b) => b
  | _ => false
  end.

Definition set_user_value (settings : obs_data_t) (name : string) (v : obs_value)
  : obs_data_t :=
  <[name := Item (Some v) (settings !! name ≫= item_default)]> settings.

Definition obs_data_set_int (settings : obs_data_t) (name : string) (i : Z) : obs_data_t :=
  set_user_value settings name (val_number (num_int i)).

Definition obs_data_set_double (settings : obs_data_t) (name : string) (d : double_t)
  : obs_data_t :=
  set_user_value settings name (val_number (num_double d)).

Definition obs_data_unset_user_value (settings : obs_data_t) (name : string) : obs_data_t :=
  match settings !! name with
  | Some it => <[name := Item None (item_default it)]> settings
  | None => settings
  end.

(** ** Keys *)

Definition ST_KEY_CAMERA_MODE : string := "Camera.Mode".
Definition ST_KEY_CAMERA_FIELDOFVIEW : string := "Camera.FieldOfView".
Definition ST_KEY_POSITION_X : string := "Position.X".
Definition ST_KEY_POSITION_Y : string := "Position.Y".
Definition ST_KEY_POSITION_Z : string := "Position.Z".
Definition ST_KEY_ROTATION_X : string := "Rotation.X".
Definition ST_KEY_ROTATION_Y : string := "Rotation.Y".
Definition ST_KEY_ROTATION_Z : string := "Rotation.Z".
Definition ST_KEY_SCALE_X : string := "Scale.X".
Definition ST_KEY_SCALE_Y : string := "Scale.Y".
Definition ST_KEY_SHEAR_X : string := "Shear.X".
Definition ST_KEY_SHEAR_Y : string := "Shear.Y".
Definition ST_KEY_ROTATION_ORDER : string := "Rotation.Order".
Definition ST_KEY_MIPMAPPING : string := "Mipmapping".

(** [enum class CameraMode : int64_t { Orthographic, Perspective }] *)
Inductive CameraMode := Orthographic | Perspective.

Definition CameraMode_value (m : CameraMode) : Z :=
  match m with
  | Orthographic => 0
  | Perspective => 1
  end.

(** [enum RotationOrder : int64_t { XYZ, XZY, YXZ, YZX, ZXY, ZYX }] *)
Inductive RotationOrder := XYZ | XZY | YXZ | YZX | ZXY | ZYX.

Definition RotationOrder_value (o : RotationOrder) : Z :=
  match o with
  | XYZ => 0
  | XZY => 1
  | YXZ => 2
  | YZX => 3
  | ZXY => 4
  | ZYX => 5
  end.

(** ** Settings migration *)

(** The [TYPE] argument of the migration macros, pasted into
    [obs_data_get_##TYPE] and [obs_data_set_##TYPE]. *)
Inductive data_type := type_int | type_double.

Definition obs_data_copy (TYPE : data_type) (settings : obs_data_t) (OLDNAME NEWNAME : string)
  : obs_data_t :=
  match TYPE with
  | type_int => obs_data_set_int settings NEWNAME (obs_data_get_int settings OLDNAME)
  | type_double => obs_data_set_double settings NEWNAME (obs_data_get_double settings OLDNAME)
  end.

Definition COPY_UNSET (TYPE : data_type) (OLDNAME NEWNAME : string) (settings : obs_data_t)
  : obs_data_t :=
  if obs_data_has_user_value settings OLDNAME then
    obs_data_unset_user_value (obs_data_copy TYPE settings OLDNAME NEWNAME) OLDNAME
  else settings.

Definition COPY_IGNORE (TYPE : data_type) (OLDNAME NEWNAME : string) (settings : obs_data_t)
  : obs_data_t :=
  if obs_data_has_user_value settings OLDNAME then
    obs_data_copy TYPE settings OLDNAME NEWNAME
  else settings.

Definition SET_IF_UNSET_int (NAME : string) (value : Z) (settings : obs_data_t) : obs_data_t :=
  if negb (obs_data_has_user_value settings NAME) then
    obs_data_set_int settings NAME value
  else settings.

(** The statements of the [version < 0.11.0.0] block, in source order: the
    macro, its [TYPE], its first argument and its second argument. *)
Definition migrate_0_11_copies : list (data_type * string * string) :=
  [ (type_int, ST_KEY_CAMERA_MODE, "Filter.Transform.Camera");
    (type_double, ST_KEY_CAMERA_FIELDOFVIEW, "Filter.Transform.Camera.FieldOfView");
    (type_double, ST_KEY_POSITION_X, "Filter.Transform.Position.X");
    (type_double, ST_KEY_POSITION_Y, "Filter.Transform.Position.Y");
    (type_double, ST_KEY_POSITION_Z, "Filter.Transform.Position.Z");
    (type_double, ST_KEY_ROTATION_X, "Filter.Transform.Rotation.X");
    (type_double, ST_KEY_ROTATION_Y, "Filter.Transform.Rotation.Y");
    (type_double, ST_KEY_ROTATION_Z, "Filter.Transform.Rotation.Z");
    (type_double, ST_KEY_SCALE_X, "Filter.Transform.Scale.X");
    (type_double, ST_KEY_SCALE_Y, "Filter.Transform.Scale.Y");
    (type_double, ST_KEY_SHEAR_X, "Filter.Transform.Shear.X");
    (type_double, ST_KEY_SHEAR_Y, "Filter.Transform.Shear.Y");
    (type_double, ST_KEY_ROTATION_ORDER, "Filter.Transform.Rotation.Order");
    (type_double, ST_KEY_MIPMAPPING, "Filter.Transform.Mipmapping") ].

Section Migrate.
(** The version macros come from a generated header that is not part of
    the sources; they are parameters of the migration. *)
Variable STREAMFX_MASK_UPDATE : Z.
Variable STREAMFX_MAKE_VERSION : Z -> Z -> Z -> Z -> Z.

Definition migrate_0_8 (settings : obs_data_t) : obs_data_t :=
  let settings := COPY_IGNORE type_double ST_KEY_ROTATION_X ST_KEY_ROTATION_X settings in
  COPY_IGNORE type_double ST_KEY_ROTATION_Y ST_KEY_ROTATION_Y settings.

Definition migrate_0_11 (settings : obs_data_t) : obs_data_t :=
  let settings :=
    fold_left (fun s '(TYPE, OLDNAME, NEWNAME) => COPY_UNSET TYPE OLDNAME NEWNAME s)
              migrate_0_11_copies settings in
  if negb (obs_data_has_user_value settings ST_KEY_CAMERA_MODE) then
    SET_IF_UNSET_int ST_KEY_CAMERA_MODE (CameraMode_value Orthographic) settings
  else settings.

Definition migrate (settings : obs_data_t) (version : Z) : obs_data_t :=
  (* Only test for A.B.C in A.B.C.D *)
  let version := Z.land version STREAMFX_MASK_UPDATE in
  let settings :=
    if version <? STREAMFX_MAKE_VERSION 0 8 0 0 then migrate_0_8 settings else settings in
  if version <? STREAMFX_MAKE_VERSION 0 11 0 0 then migrate_0_11 settings else settings.
End Migrate.

(** ** Instance state *)

(** A texture handle, with what the filter reads from it. *)
Record texture := Texture { get_width : Z; get_height : Z; mip_levels : Z }.

Record transform_instance := Instance {
  _cache_rendered : bool;
  _mipmap_rendered : bool;
  _source_rendered : bool;
  _mipmap_enabled : bool;
  _source_size : Z * Z;
  _update_mesh : bool;
  _rotation_order : Z;
  _camera_orthographic : bool;
  _camera_fov : float_t;
  _position : vec3;
  _rotation : vec3;
  _scale : vec3;
  _shear : vec3;
  _vertex_buffer : list vertex;
  _cache_texture : option texture;
  _mipmap_texture : option texture;
  _source_texture : option texture
}.

(** The members that hold the transform parameters. *)
Record TransformParameters := Parameters {
  camera_orthographic : bool;
  field_of_view : float_t;
  param_position : vec3;
  param_rotation : vec3;
  rotation_order : Z;
  param_scale : vec3;
  param_shear : vec3;
  mipmap_enabled : bool
}.

Definition parameters (st : transform_instance) : TransformParameters :=
  {| camera_orthographic := _camera_orthographic st;
     field_of_view := _camera_fov st;
     param_position := _position st;
     param_rotation := _rotation st;
     rotation_order := _rotation_order st;
     param_scale := _scale st;
     param_shear := _shear st;
     mipmap_enabled := _mipmap_enabled st |}.

(** ** update *)

Definition percent (settings : obs_data_t) (name : string) : float_t :=
  Float32.of_double (Float64.div (obs_data_get_double settings name) (Float64.of_Z 100)).

Definition degrees (settings : obs_data_t) (name : string) : float_t :=
  Float32.of_double
    (Float64.mul (Float64.div (obs_data_get_double settings name) (Float64.of_Z 180)) S_PI).

Definition update (settings : obs_data_t) (st : transform_instance) : transform_instance :=
  {| (* Camera *)
     _camera_orthographic := obs_data_get_int settings ST_KEY_CAMERA_MODE =? 0;
     _camera_fov := Float32.of_double (obs_data_get_double settings ST_KEY_CAMERA_FIELDOFVIEW);
     (* Source *)
     _position := vec3_set (percent settings ST_KEY_POSITION_X)
                           (percent settings ST_KEY_POSITION_Y)
                           (percent settings ST_KEY_POSITION_Z);
     _scale := vec3_set (percent settings ST_KEY_SCALE_X)
                        (percent settings ST_KEY_SCALE_Y)
                        Float32.one;
     _rotation_order := to_uint32 (obs_data_get_int settings ST_KEY_ROTATION_ORDER);
     _rotation := vec3_set (degrees settings ST_KEY_ROTATION_X)
                           (degrees settings ST_KEY_ROTATION_Y)
                           (degrees settings ST_KEY_ROTATION_Z);
     _shear := vec3_set (percent settings ST_KEY_SHEAR_X)
                        (percent settings ST_KEY_SHEAR_Y)
                        Float32.zero;
     (* Mip-mapping *)
     _mipmap_enabled := obs_data_get_bool settings ST_KEY_MIPMAPPING;
     _update_mesh := true;
     (* untouched members *)
     _cache_rendered := _cache_rendered st;
     _mipmap_rendered := _mipmap_rendered st;
     _source_rendered := _source_rendered st;
     _source_size := _source_size st;
     _vertex_buffer := _vertex_buffer st;
     _cache_texture := _cache_texture st;
     _mipmap_texture := _mipmap_texture st;
     _source_texture := _source_texture st |}.

(** Member assignments that leave the other members as they are. *)
Definition set_cache_rendered (b : bool) (st : transform_instance) : transform_instance :=
  Instance b (_mipmap_rendered st) (_source_rendered st) (_mipmap_enabled st) (_source_size st)
           (_update_mesh st) (_rotation_order st) (_camera_orthographic st) (_camera_fov st)
           (_position st) (_rotation st) (_scale st) (_shear st) (_vertex_buffer st)
           (_cache_texture st) (_mipmap_texture st) (_source_texture st).

Definition set_mipmap_rendered (b : bool) (st : transform_instance) : transform_instance :=
  Instance (_cache_rendered st) b (_source_rendered st) (_mipmap_enabled st) (_source_size st)
           (_update_mesh st) (_rotation_order st) (_camera_orthographic st) (_camera_fov st)
           (_position st) (_rotation st) (_scale st) (_shear st) (_vertex_buffer st)
           (_cache_texture st) (_mipmap_texture st) (_source_texture st).

Definition set_source_rendered (b : bool) (st : transform_instance) : transform_instance :=
  Instance (_cache_rendered st) (_mipmap_rendered st) b (_mipmap_enabled st) (_source_size st)
           (_update_mesh st) (_rotation_order st) (_camera_orthographic st) (_camera_fov st)
           (_position st) (_rotation st) (_scale st) (_shear st) (_vertex_buffer st)
           (_cache_texture st) (_mipmap_texture st) (_source_texture st).

Definition set_source_size (sz : Z * Z) (st : transform_instance) : transform_instance :=
  Instance (_cache_rendered st) (_mipmap_rendered st) (_source_rendered st) (_mipmap_enabled st)
           sz (_update_mesh st) (_rotation_order st) (_camera_orthographic st) (_camera_fov st)
           (_position st) (_rotation st) (_scale st) (_shear st) (_vertex_buffer st)
           (_cache_texture st) (_mipmap_texture st) (_source_texture st).

Definition set_update_mesh (b : bool) (st : transform_instance) : transform_instance :=
  Instance (_cache_rendered st) (_mipmap_rendered st) (_source_rendered st) (_mipmap_enabled st)
           (_source_size st) b (_rotation_order st) (_camera_orthographic st) (_camera_fov st)
           (_position st) (_rotation st) (_scale st) (_shear st) (_vertex_buffer st)
           (_cache_texture st) (_mipmap_texture st) (_source_texture st).

Definition set_vertex_buffer (vb : list vertex) (st : transform_instance) : transform_instance :=
  Instance (_cache_rendered st) (_mipmap_rendered st) (_source_rendered st) (_mipmap_enabled st)
           (_source_size st) (_update_mesh st) (_rotation_order st) (_camera_orthographic st)
           (_camera_fov st) (_position st) (_rotation st) (_scale st) (_shear st) vb
           (_cache_texture st) (_mipmap_texture st) (_source_texture st).

Definition set_cache_texture (t : option texture) (st : transform_instance)
  : transform_instance :=
  Instance (_cache_rendered st) (_mipmap_rendered st) (_source_rendered st) (_mipmap_enabled st)
           (_source_size st) (_update_mesh st) (_rotation_order st) (_camera_orthographic st)
           (_camera_fov st) (_position st) (_rotation st) (_scale st) (_shear st)
           (_vertex_buffer st) t (_mipmap_texture st) (_source_texture st).

Definition set_mipmap_texture (t : option texture) (st : transform_instance)
  : transform_instance :=
  Instance (_cache_rendered st) (_mipmap_rendered st) (_source_rendered st) (_mipmap_enabled st)
           (_source_size st) (_update_mesh st) (_rotation_order st) (_camera_orthographic st)
           (_camera_fov st) (_position st) (_rotation st) (_scale st) (_shear st)
           (_vertex_buffer st) (_cache_texture st) t (_source_texture st).

Definition set_source_texture (t : option texture) (st : transform_instance)
  : transform_instance :=
  Instance (_cache_rendered st) (_mipmap_rendered st) (_source_rendered st) (_mipmap_enabled st)
           (_source_size st) (_update_mesh st) (_rotation_order st) (_camera_orthographic st)
           (_camera_fov st) (_position st) (_rotation st) (_scale st) (_shear st)
           (_vertex_buffer st) (_cache_texture st) (_mipmap_texture st) t.

(** ** video_tick: the mesh builder *)

(** The case label, if any, that a value of [_rotation_order] selects. *)
Definition RotationOrder_case (n : Z) : option RotationOrder :=
  List.find (fun o => n =? RotationOrder_value o) [XYZ; XZY; YXZ; YZX; ZXY; ZYX].

(** [vtx = _vertex_buffer->at(i)] followed by the writes to [*vtx.color],
    [vtx.uv[0]] and [vtx.position].  The buffer is created with four
    vertices and the indices are 0 to 3. *)
Definition write_vertex (i : nat) (v : vertex) (vb : list vertex) : list vertex :=
  <[i := v]> vb.

Section MeshBuilder.
Context `{Matrix4Ops}.

(** The matrix of the mesh: the [switch] over [_rotation_order] and the
    translation that follows it. *)
Definition mesh_matrix (st : transform_instance) : matrix4 :=
  let ident := matrix4_identity in
  let '(r0, r1) := (Float32.zero, Float32.one) in
  let ident :=
    match RotationOrder_case (_rotation_order st) with
    | Some XYZ =>
        let ident := matrix4_rotate_aa4f ident r1 r0 r0 (vx (_rotation st)) in
        let ident := matrix4_rotate_aa4f ident r0 r1 r0 (vy (_rotation st)) in
        matrix4_rotate_aa4f ident r0 r0 r1 (vz (_rotation st))
    | Some XZY =>
        let ident := matrix4_rotate_aa4f ident r1 r0 r0 (vx (_rotation st)) in
        let ident := matrix4_rotate_aa4f ident r0 r0 r1 (vz (_rotation st)) in
        matrix4_rotate_aa4f ident r0 r1 r0 (vy (_rotation st))
    | Some YXZ =>
        let ident := matrix4_rotate_aa4f ident r0 r1 r0 (vy (_rotation st)) in
        let ident := matrix4_rotate_aa4f ident r1 r0 r0 (vx (_rotation st)) in
        matrix4_rotate_aa4f ident r0 r0 r1 (vz (_rotation st))
    | Some YZX =>
        let ident := matrix4_rotate_aa4f ident r0 r1 r0 (vy (_rotation st)) in
        let ident := matrix4_rotate_aa4f ident r0 r0 r1 (vz (_rotation st)) in
        matrix4_rotate_aa4f ident r1 r0 r0 (vx (_rotation st))
    | Some ZXY =>
        let ident := matrix4_rotate_aa4f ident r0 r0 r1 (vz (_rotation st)) in
        let ident := matrix4_rotate_aa4f ident r1 r0 r0 (vx (_rotation st)) in
        matrix4_rotate_aa4f ident r0 r1 r0 (vy (_rotation st))
    | Some ZYX =>
        let ident := matrix4_rotate_aa4f ident r0 r0 r1 (vz (_rotation st)) in
        let ident := matrix4_rotate_aa4f ident r0 r1 r0 (vy (_rotation st)) in
        matrix4_rotate_aa4f ident r1 r0 r0 (vx (_rotation st))
    | None => ident
    end in
  matrix4_translate3f ident (vx (_position st)) (vy (_position st)) (vz (_position st)).

(** The aspect ratio of the mesh, from the dimensions after the zero
    check. *)
Definition aspect_ratio (st : transform_instance) (width height : Z) : float_t :=
  let aspectRatioX := Float32.div (Float32.of_Z width) (Float32.of_Z height) in
  if _camera_orthographic st then Float32.one else aspectRatioX.

(** The body of [if (_update_mesh)]. *)
Definition update_mesh (width height : Z) (st : transform_instance) : transform_instance :=
  let st := set_source_size (width, height) st in
  let width := if width =? 0 then 1 else width in
  let height := if height =? 0 then 1 else height in
  (* Calculate Aspect Ratio *)
  let aspectRatioX := aspect_ratio st width height in
  (* Mesh *)
  let ident := mesh_matrix st in
  (* Calculate vertex position once only. *)
  let p_x := Float32.mul aspectRatioX (vx (_scale st)) in
  let p_y := Float32.mul Float32.one (vy (_scale st)) in
  let '(f0, f1, white) := (Float32.zero, Float32.one, 0xFFFFFFFF) in
  let shear := _shear st in
  (* Generate mesh *)
  let vb := _vertex_buffer st in
  let vb :=
    write_vertex 0 (Vertex (vec3_transform
                              (vec3_set (Float32.add (Float32.opp p_x) (vx shear))
                                        (Float32.sub (Float32.opp p_y) (vy shear)) f0) ident)
                           white (vec4_set f0 f0 f0 f0)) vb in
  let vb :=
    write_vertex 1 (Vertex (vec3_transform
                              (vec3_set (Float32.add p_x (vx shear))
                                        (Float32.add (Float32.opp p_y) (vy shear)) f0) ident)
                           white (vec4_set f1 f0 f0 f0)) vb in
  let vb :=
    write_vertex 2 (Vertex (vec3_transform
                              (vec3_set (Float32.sub (Float32.opp p_x) (vx shear))
                                        (Float32.sub p_y (vy shear)) f0) ident)
                           white (vec4_set f0 f1 f0 f0)) vb in
  let vb :=
    write_vertex 3 (Vertex (vec3_transform
                              (vec3_set (Float32.sub p_x (vx shear))
                                        (Float32.add p_y (vy shear)) f0) ident)
                           white (vec4_set f1 f1 f0 f0)) vb in
  set_update_mesh false (set_vertex_buffer vb st).

(** The size check at the head of [video_tick]. *)
Definition check_size (width height : Z) (st : transform_instance) : transform_instance :=
  if negb (width =? fst (_source_size st)) then set_update_mesh true st
  else if negb (height =? snd (_source_size st)) then set_update_mesh true st
  else st.

(** [target] is the filter target with its base width and height, if the
    filter has one. *)
Definition video_tick (target : option (Z * Z)) (st : transform_instance)
  : transform_instance :=
  let width := match target with Some (w, _) => w | None => 0 end in
  let height := match target with Some (_, h) => h | None => 0 end in
  (* If size mismatch, force an update. *)
  let st := check_size width height st in
  (* Update Mesh *)
  let st := if _update_mesh st then update_mesh width height st else st in
  set_source_rendered false (set_mipmap_rendered false (set_cache_rendered false st)).
End MeshBuilder.

(** ** video_render: cache sizing *)

(** Modelled from the spec: [streamfx::util::math::get_power_of_two_exponent_ceil]
    lives in a header that is not part of the sources.  The spec has each
    axis "rounded up to the next power of two", so the helper returns the
    least exponent [e] with [v <= 2 ^ e]. *)
Definition get_power_of_two_exponent_ceil (v : Z) : Z := Z.log2_up v.

(** [std::clamp(v, lo, hi)] *)
Definition clamp (v lo hi : Z) : Z :=
  if v <? lo then lo else if hi <? v then hi else v.

(** [std::clamp(uint32_t(pow(2, get_power_of_two_exponent_ceil(v))), 1u, 16384u)] *)
Definition pow2_ceil_clamped (v : Z) : Z :=
  clamp (to_uint32 (2 ^ get_power_of_two_exponent_ceil v)) 1 16384.

(** The resolution of the capture surface. *)
Definition cache_size (mipmap_enabled : bool) (base_width base_height : Z) : Z * Z :=
  let cache_width := base_width in
  let cache_height := base_height in
  if mipmap_enabled then
    let aspect := Float64.div (Float64.of_Z base_width) (Float64.of_Z base_height) in
    let aspect2 := Float64.div Float64.one aspect in
    let cache_width := pow2_ceil_clamped cache_width in
    let cache_height := pow2_ceil_clamped cache_height in
    if Float64.ltb Float64.one aspect then
      (cache_width,
       pow2_ceil_clamped
         (to_uint64 (Float64.trunc (Float64.mul (Float64.of_Z cache_width) aspect2))))
    else if Float64.ltb aspect Float64.one then
      (pow2_ceil_clamped
         (to_uint64 (Float64.trunc (Float64.mul (Float64.of_Z cache_height) aspect))),
       cache_height)
    else (cache_width, cache_height)
  else (cache_width, cache_height).

(** ** video_render: the passes *)

Definition farZ : float_t := Float32.of_Z 2097152.
Definition nearZ : float_t := Float32.div Float32.one farZ.

(** The calls of the render pass that the host or the GPU observes. *)
Inductive gs_call :=
| obs_source_skip_video_filter
| cache_rt_render (width height : Z)
| gs_ortho (left right top bottom znear zfar : float_t)
| gs_perspective (fovy aspect znear zfar : float_t)
| obs_source_process_filter_begin
| obs_source_process_filter_end (width height : Z)
| mipmap_texture_create (width height levels : Z)
| mipmapper_rebuild (source destination : option texture)
| source_rt_render (width height : Z)
| gs_draw_tristrip (vertices : list vertex) (image : option texture)
| gs_draw_sprite (image : option texture) (width height : Z).

(** What the host answers during one call of [video_render]. *)
Record host_frame := Frame {
  (** [obs_filter_get_parent(_self)] is not null *)
  frame_parent : bool;
  (** [obs_filter_get_target(_self)] with its base width and height *)
  frame_target : option (Z * Z);
  (** the result of [obs_source_process_filter_begin] *)
  frame_filter_begin : bool;
  (** what [_cache_rt->get_texture] stores *)
  frame_cache_texture : option texture;
  (** what [_source_rt->get_texture] stores *)
  frame_source_texture : option texture
}.

(** A render pass runs on the instance, appends calls, and either goes on
    with a value or has executed [return]. *)
Inductive flow (A : Type) :=
| Next (a : A)
| Return.
Arguments Next {A} a.
Arguments Return {A}.

Definition render (A : Type) : Type :=
  transform_instance -> flow A * transform_instance * list gs_call.

#[export] Instance render_ret : MRet render :=
  fun A a st => (Next a, st, []).

#[export] Instance render_bind : MBind render :=
  fun A B k m st =>
    match m st with
    | (Next a, st1, calls1) =>
        let '(r, st2, calls2) := k a st1 in (r, st2, calls1 ++ calls2)
    | (Return, st1, calls1) => (Return, st1, calls1)
    end.

Definition call (c : gs_call) : render unit := fun st => (Next tt, st, [c]).
Definition get_instance : render transform_instance := fun st => (Next st, st, []).
Definition assign (f : transform_instance -> transform_instance) : render unit :=
  fun st => (Next tt, f st, []).
Definition return_now : render unit := fun st => (Return, st, []).
Definition skip_and_return : render unit :=
  call obs_source_skip_video_filter;; return_now.
Definition when (b : bool) (m : render unit) : render unit :=
  if b then m else mret tt.

Definition is_null {A} (p : option A) : bool :=
  match p with
  | Some _ => false
  | None => true
  end.

(** The projection that the transform pass of [video_render] selects. *)
Definition projection (st : transform_instance) (base_width base_height : Z) : gs_call :=
  if _camera_orthographic st
  then gs_ortho (Float32.of_Z (-1)) Float32.one (Float32.of_Z (-1)) Float32.one
                (Float32.opp farZ) farZ
  else gs_perspective (_camera_fov st)
                      (Float32.div (Float32.of_Z base_width) (Float32.of_Z base_height))
                      nearZ farZ.

Definition video_render (host : host_frame) : render unit :=
  let base_width := match frame_target host with Some (w, _) => w | None => 0 end in
  let base_height := match frame_target host with Some (_, h) => h | None => 0 end in
  (* Skip if something is wrong. *)
  when ((base_width =? 0) || (base_height =? 0) || negb (frame_parent host)
        || is_null (frame_target host))
       skip_and_return;;
  st ← get_instance;
  let '(cache_width, cache_height) :=
    cache_size (_mipmap_enabled st) base_width base_height in
  when (negb (_cache_rendered st))
       (call (cache_rt_render cache_width cache_height);;
        call (gs_ortho Float32.zero (Float32.of_Z base_width)
                       Float32.zero (Float32.of_Z base_height)
                       (Float32.of_Z (-1)) Float32.one);;
        (* Render original source *)
        call obs_source_process_filter_begin;;
        (if frame_filter_begin host
         then call (obs_source_process_filter_end base_width base_height)
         else skip_and_return);;
        assign (set_cache_rendered true));;
  assign (set_cache_texture (frame_cache_texture host));;
  st ← get_instance;
  when (is_null (_cache_texture st)) skip_and_return;;
  when (_mipmap_enabled st)
       (st ← get_instance;
        when (is_null (_mipmap_texture st)
              || negb (from_option get_width 0 (_mipmap_texture st) =? cache_width)
              || negb (from_option get_height 0 (_mipmap_texture st) =? cache_height))
             (let mip_levels := Z.max (get_power_of_two_exponent_ceil cache_width)
                                      (get_power_of_two_exponent_ceil cache_height) in
              call (mipmap_texture_create cache_width cache_height (to_uint32 mip_levels));;
              assign (set_mipmap_texture
                        (Some (Texture cache_width cache_height (to_uint32 mip_levels)))));;
        st ← get_instance;
        call (mipmapper_rebuild (_cache_texture st) (_mipmap_texture st));;
        assign (set_mipmap_rendered true);;
        when (is_null (_mipmap_texture st)) skip_and_return);;
  st ← get_instance;
  call (source_rt_render base_width base_height);;
  call (projection st base_width base_height);;
  call (gs_draw_tristrip (_vertex_buffer st)
          (if _mipmap_enabled st
           then (if is_null (_mipmap_texture st) then _cache_texture st
                 else _mipmap_texture st)
           else _cache_texture st));;
  assign (set_source_texture (frame_source_texture host));;
  st ← get_instance;
  when (is_null (_source_texture st)) skip_and_return;;
  call (gs_draw_sprite (_source_texture st) base_width base_height).

(** ** The constructor *)

Definition zero_vertex : vertex :=
  Vertex (vec3_set Float32.zero Float32.zero Float32.zero) 0
         (vec4_set Float32.zero Float32.zero Float32.zero Float32.zero).

Definition transform_instance_new (data : obs_data_t) : transform_instance :=
  update data
    {| _cache_rendered := false; _mipmap_rendered := false; _source_rendered := false;
       _mipmap_enabled := false; _source_size := (0, 0); _update_mesh := false;
       _rotation_order := 0; _camera_orthographic := false; _camera_fov := Float32.zero;
       _position := vec3_set Float32.zero Float32.zero Float32.zero;
       _rotation := vec3_set Float32.zero Float32.zero Float32.zero;
       _scale := vec3_set Float32.one Float32.one Float32.one;
       _shear := vec3_set Float32.zero Float32.zero Float32.zero;
       _vertex_buffer := replicate 4 zero_vertex;
       _cache_texture := None; _mipmap_texture := None; _source_texture := None |}.

(** ** Versions *)

(** Modelled from the spec: the version macros come from a generated header
    that is not part of the sources.  A version is "a monotonically
    increasing version number" A.B.C.D; here each component takes 16 bits
    and the mask keeps A.B.C. *)
Definition version_mask_update : Z := 0xFFFFFFFFFFFF0000.

Definition version_make (major minor patch tweak : Z) : Z :=
  Z.lor (Z.lor (Z.lor (Z.shiftl (Z.land major 0xFFFF) 48) (Z.shiftl (Z.land minor 0xFFFF) 32))
               (Z.shiftl (Z.land patch 0xFFFF) 16))
        (Z.land tweak 0xFFFF).

(** ** Auxiliary definitions for the statements *)

(** The arguments of the four [vec4_set] and [vec3_set] calls of the
    "Generate mesh" blocks, in vertex order: the texture coordinate and the
    position before [vec3_transform]. *)
Definition untransformed_corners (p_x p_y : float_t) (shear : vec3) : list (vec4 * vec3) :=
  let '(f0, f1) := (Float32.zero, Float32.one) in
  [ (vec4_set f0 f0 f0 f0,
     vec3_set (Float32.add (Float32.opp p_x) (vx shear))
              (Float32.sub (Float32.opp p_y) (vy shear)) f0);
    (vec4_set f1 f0 f0 f0,
     vec3_set (Float32.add p_x (vx shear))
              (Float32.add (Float32.opp p_y) (vy shear)) f0);
    (vec4_set f0 f1 f0 f0,
     vec3_set (Float32.sub (Float32.opp p_x) (vx shear))
              (Float32.sub p_y (vy shear)) f0);
    (vec4_set f1 f1 f0 f0,
     vec3_set (Float32.sub p_x (vx shear))
              (Float32.add p_y (vy shear)) f0) ].

(** The assignments at the end of [video_tick]. *)
Definition clear_rendered (st : transform_instance) : transform_instance :=
  set_source_rendered false (set_mipmap_rendered false (set_cache_rendered false st)).

(** The axes that the name of a rotation order lists, in order. *)
Inductive axis := axis_x | axis_y | axis_z.

Definition axis_sequence (o : RotationOrder) : list axis :=
  match o with
  | XYZ => [axis_x; axis_y; axis_z]
  | XZY => [axis_x; axis_z; axis_y]
  | YXZ => [axis_y; axis_x; axis_z]
  | YZX => [axis_y; axis_z; axis_x]
  | ZXY => [axis_z; axis_x; axis_y]
  | ZYX => [axis_z; axis_y; axis_x]
  end.

Definition axis_unit (a : axis) : vec3 :=
  match a with
  | axis_x => vec3_set Float32.one Float32.zero Float32.zero
  | axis_y => vec3_set Float32.zero Float32.one Float32.zero
  | axis_z => vec3_set Float32.zero Float32.zero Float32.one
  end.

Definition axis_angle (rotation : vec3) (a : axis) : float_t :=
  match a with
  | axis_x => vx rotation
  | axis_y => vy rotation
  | axis_z => vz rotation
  end.

(** One axis-angle rotation about a unit axis by the angle that the
    rotation vector holds for that axis. *)
Definition rotate_about `{Matrix4Ops} (rotation : vec3) (m : matrix4) (a : axis) : matrix4 :=
  matrix4_rotate_aa4f m (vx (axis_unit a)) (vy (axis_unit a)) (vz (axis_unit a))
                      (axis_angle rotation a).

(** An instance of the matrix interface on which the definitions run:
    matrices that carry a translation only.  A rotation multiplies by the
    unit matrix, which is what libobs does for an angle of zero. *)
Definition vec3_add (a b : vec3) : vec3 :=
  vec3_set (Float32.add (vx a) (vx b)) (Float32.add (vy a) (vy b)) (Float32.add (vz a) (vz b)).

Definition vec3_zero : vec3 := vec3_set Float32.zero Float32.zero Float32.zero.

Definition translation_ops : Matrix4Ops :=
  {| matrix4 := vec3;
     matrix4_identity := vec3_zero;
     matrix4_rotate_aa4f m _ _ _ _ := vec3_add m vec3_zero;
     matrix4_translate3f m x y z := vec3_add m (vec3_set x y z);
     vec3_transform v m := vec3_add v m |}.

(** The settings of the end-to-end example: position (0,0,0), rotation
    (0,0,0), scale (100,100), shear (0,0), orthographic camera. *)
Definition example_settings : obs_data_t :=
  let set_double name n s := obs_data_set_double s name (Float64.of_Z n) in
  set_double ST_KEY_SHEAR_Y 0 (set_double ST_KEY_SHEAR_X 0
    (set_double ST_KEY_SCALE_Y 100 (set_double ST_KEY_SCALE_X 100
      (set_double ST_KEY_ROTATION_Z 0 (set_double ST_KEY_ROTATION_Y 0
        (set_double ST_KEY_ROTATION_X 0
          (set_double ST_KEY_POSITION_Z 0 (set_double ST_KEY_POSITION_Y 0
            (set_double ST_KEY_POSITION_X 0
              (obs_data_set_int ∅ ST_KEY_CAMERA_MODE (CameraMode_value Orthographic))))))))))).

Definition example_instance : transform_instance := transform_instance_new example_settings.

(** The example instance after a tick on an 800x600 target, and an
    instance whose settings hold a rotation order without a case label. *)
Definition ticked_instance : transform_instance :=
  @video_tick translation_ops (Some (800, 600)) example_instance.

Definition unordered_instance : transform_instance :=
  transform_instance_new (obs_data_set_int example_settings ST_KEY_ROTATION_ORDER 6).

(** A frame in which the capture begins and ends but the render target
    hands out no texture. *)
Definition frame_without_texture : host_frame :=
  Frame true (Some (1920, 1080)) true None None.

(** The cache sizing policy as the specification words it: the
    power-of-two ceiling is taken of the exact quotient
    (snapped width) / (w / h), and symmetrically for the width. *)
Definition pow2_ceiling (q : Q) : Z := 2 ^ Z.log2_up (Qceiling q).

Definition claimed_cache_size (mipmap_enabled : bool) (w h : Z) : Z * Z :=
  if mipmap_enabled then
    let snapped_width := clamp (pow2_ceiling (inject_Z w)) 1 16384 in
    let snapped_height := clamp (pow2_ceiling (inject_Z h)) 1 16384 in
    let aspect := (inject_Z w / inject_Z h)%Q in
    match (aspect ?= 1)%Q with
    | Gt => (snapped_width, clamp (pow2_ceiling (inject_Z snapped_width / aspect)) 1 16384)
    | Lt => (clamp (pow2_ceiling (inject_Z snapped_height * aspect)) 1 16384, snapped_height)
    | Eq => (snapped_width, snapped_height)
    end
  else (w, h).

(** The settings of an instance saved before 0.11 with one legacy key, and
    the settings of an instance with one current key. *)
Definition legacy_settings : obs_data_t :=
  obs_data_set_double ∅ "Filter.Transform.Position.X" (Float64.of_Z 50).

Definition current_settings : obs_data_t :=
  obs_data_set_double ∅ ST_KEY_POSITION_X (Float64.of_Z 50).

(** ** The factory: defaults and property visibility *)

Definition set_default_value (settings : obs_data_t) (name : string) (v : obs_value)
  : obs_data_t :=
  <[name := Item (settings !! name ≫= item_user) (Some v)]> settings.

Definition obs_data_set_default_int (settings : obs_data_t) (name : string) (i : Z)
  : obs_data_t :=
  set_default_value settings name (val_number (num_int i)).

Definition obs_data_set_default_double (settings : obs_data_t) (name : string) (d : double_t)
  : obs_data_t :=
  set_default_value settings name (val_number (num_double d)).

Definition obs_data_set_default_bool (settings : obs_data_t) (name : string) (b : bool)
  : obs_data_t :=
  set_default_value settings name (val_bool b).

(** [transform_factory::get_defaults2] *)
Definition get_defaults2 (settings : obs_data_t) : obs_data_t :=
  let settings :=
    obs_data_set_default_int settings ST_KEY_CAMERA_MODE (CameraMode_value Orthographic) in
  let settings :=
    obs_data_set_default_double settings ST_KEY_CAMERA_FIELDOFVIEW (Float64.of_Z 90) in
  let settings := obs_data_set_default_double settings ST_KEY_POSITION_X (Float64.of_Z 0) in
  let settings := obs_data_set_default_double settings ST_KEY_POSITION_Y (Float64.of_Z 0) in
  let settings := obs_data_set_default_double settings ST_KEY_POSITION_Z (Float64.of_Z 0) in
  let settings := obs_data_set_default_double settings ST_KEY_ROTATION_X (Float64.of_Z 0) in
  let settings := obs_data_set_default_double settings ST_KEY_ROTATION_Y (Float64.of_Z 0) in
  let settings := obs_data_set_default_double settings ST_KEY_ROTATION_Z (Float64.of_Z 0) in
  let settings :=
    obs_data_set_default_int settings ST_KEY_ROTATION_ORDER (RotationOrder_value ZXY) in
  let settings := obs_data_set_default_double settings ST_KEY_SCALE_X (Float64.of_Z 100) in
  let settings := obs_data_set_default_double settings ST_KEY_SCALE_Y (Float64.of_Z 100) in
  let settings := obs_data_set_default_double settings ST_KEY_SHEAR_X (Float64.of_Z 0) in
  let settings := obs_data_set_default_double settings ST_KEY_SHEAR_Y (Float64.of_Z 0) in
  obs_data_set_default_bool settings ST_KEY_MIPMAPPING false.

(** [transform_instance::load] *)
Definition load (settings : obs_data_t) (st : transform_instance) : transform_instance :=
  update settings st.

Definition ST_I18N_POSITION : string := "Filter.Transform.Position".
Definition ST_I18N_ROTATION : string := "Filter.Transform.Rotation".
Definition ST_I18N_SCALE : string := "Filter.Transform.Scale".
Definition ST_I18N_SHEAR : string := "Filter.Transform.Shear".

(** The properties of the panel with their visibility.
    [obs_property_set_visible(obs_properties_get(pr, name), b)] changes a
    property that exists and does nothing for a name without a property. *)
Definition obs_property_set_visible (name : string) (b : bool) (pr : gmap string bool)
  : gmap string bool :=
  alter (fun _ => b) name pr.

(** [modified_camera_mode]: the properties after the callback, and its
    result. *)
Definition modified_camera_mode (pr : gmap string bool) (d : obs_data_t)
  : gmap string bool * bool :=
  let mode := obs_data_get_int d ST_KEY_CAMERA_MODE in
  let is_camera := true in
  let is_perspective := (mode =? CameraMode_value Perspective) && is_camera in
  let is_orthographic := (mode =? CameraMode_value Orthographic) && is_camera in
  let pr := obs_property_set_visible ST_KEY_CAMERA_FIELDOFVIEW is_perspective pr in
  let pr := obs_property_set_visible ST_I18N_POSITION is_camera pr in
  let pr := obs_property_set_visible ST_KEY_POSITION_Z is_perspective pr in
  let pr := obs_property_set_visible ST_I18N_ROTATION is_camera pr in
  let pr := obs_property_set_visible ST_I18N_SCALE is_camera pr in
  let pr := obs_property_set_visible ST_I18N_SHEAR is_camera pr in
  let pr := obs_property_set_visible ST_KEY_ROTATION_ORDER is_camera pr in
  (pr, true).

(** The keys that [update] reads. *)
Definition update_keys : list string :=
  [ ST_KEY_CAMERA_MODE; ST_KEY_CAMERA_FIELDOFVIEW;
    ST_KEY_POSITION_X; ST_KEY_POSITION_Y; ST_KEY_POSITION_Z;
    ST_KEY_SCALE_X; ST_KEY_SCALE_Y; ST_KEY_ROTATION_ORDER;
    ST_KEY_ROTATION_X; ST_KEY_ROTATION_Y; ST_KEY_ROTATION_Z;
    ST_KEY_SHEAR_X; ST_KEY_SHEAR_Y; ST_KEY_MIPMAPPING ].

(** The instances that the host can reach: construction, then settings
    updates, ticks and render passes in any order. *)
Inductive reachable `{Matrix4Ops} : transform_instance -> Prop :=
| reachable_new data : reachable (transform_instance_new data)
| reachable_update settings st : reachable st -> reachable (update settings st)
| reachable_tick target st : reachable st -> reachable (video_tick target st)
| reachable_render host st : reachable st -> reachable (snd (fst (video_render host st))).

(** ** Auxiliary definitions for the properties of the settings *)

(** The user value and the default value that the settings hold under a
    name. *)
Definition user_of (settings : obs_data_t) (name : string) : option obs_value :=
  settings !! name ≫= item_user.

Definition default_of (settings : obs_data_t) (name : string) : option obs_value :=
  settings !! name ≫= item_default.

(** The calls of [get_defaults2] in source order: the key and the value
    that the call stores. *)
Definition default_table : list (string * obs_value) :=
  let double n := val_number (num_double (Float64.of_Z n)) in
  [ (ST_KEY_CAMERA_MODE, val_number (num_int (CameraMode_value Orthographic)));
    (ST_KEY_CAMERA_FIELDOFVIEW, double 90);
    (ST_KEY_POSITION_X, double 0); (ST_KEY_POSITION_Y, double 0);
    (ST_KEY_POSITION_Z, double 0);
    (ST_KEY_ROTATION_X, double 0); (ST_KEY_ROTATION_Y, double 0);
    (ST_KEY_ROTATION_Z, double 0);
    (ST_KEY_ROTATION_ORDER, val_number (num_int (RotationOrder_value ZXY)));
    (ST_KEY_SCALE_X, double 100); (ST_KEY_SCALE_Y, double 100);
    (ST_KEY_SHEAR_X, double 0); (ST_KEY_SHEAR_Y, double 0);
    (ST_KEY_MIPMAPPING, val_bool false) ].

(** The name that the 0.11 block pairs with the camera mode, and settings
    in which the user has chosen the perspective camera. *)
Definition legacy_camera_mode : string := "Filter.Transform.Camera".

Definition perspective_settings : obs_data_t :=
  obs_data_set_int ∅ ST_KEY_CAMERA_MODE (CameraMode_value Perspective).

(** Settings that differ from the example settings under a key that
    [update] does not read. *)
Definition unrelated_settings : obs_data_t :=
  obs_data_set_int example_settings "Unrelated" 7.

(** ** Auxiliary definitions for the properties of the render pass *)

(** The part of the instance that belongs to [update] and [video_tick]. *)
Definition static_part (st : transform_instance)
  : TransformParameters * (Z * Z) * list vertex * bool * bool :=
  (parameters st, _source_size st, _vertex_buffer st, _update_mesh st, _source_rendered st).

Definition keeps_static {A} (m : render A) : Prop :=
  forall st, static_part (snd (fst (m st))) = static_part st.

Definition calls_satisfy {A} (P : gs_call -> Prop) (m : render A) : Prop :=
  forall st, Forall P (snd (m st)).

(** The calls of the capture stage: binding the capture surface and the
    two halves of the capture hook. *)
Definition is_capture_call (c : gs_call) : bool :=
  match c with
  | cache_rt_render _ _ | obs_source_process_filter_begin
  | obs_source_process_filter_end _ _ => true
  | _ => false
  end.

(** The calls that end a pass: the skip signal and the final sprite. *)
Definition is_final_call (c : gs_call) : bool :=
  match c with
  | obs_source_skip_video_filter | gs_draw_sprite _ _ _ => true
  | _ => false
  end.

(** A stage goes on after calls that are neither a skip nor a sprite, or
    returns after such calls followed by one skip. *)
Definition stage_ends_well {A} (m : render A) : Prop :=
  forall st,
    match m st with
    | (Next _, _, calls) => Forall (fun c => is_final_call c = false) calls
    | (Return, _, calls) =>
        exists pre, calls = pre ++ [obs_source_skip_video_filter]
                    /\ Forall (fun c => is_final_call c = false) pre
    end.

(** A pass ends with one sprite, or returns after one skip. *)
Definition pass_ends_well (m : render unit) : Prop :=
  forall st,
    match m st with
    | (Next _, _, calls) =>
        exists pre image w h, calls = pre ++ [gs_draw_sprite image w h]
                              /\ Forall (fun c => is_final_call c = false) pre
    | (Return, _, calls) =>
        exists pre, calls = pre ++ [obs_source_skip_video_filter]
                    /\ Forall (fun c => is_final_call c = false) pre
    end.

(** Frames and instances on which the statements are run: a frame without
    a parent, a frame whose render targets hand out textures, the example
    instance with the capture marked done, and an instance with mipmapping
    enabled. *)
Definition frame_without_parent : host_frame := Frame false None false None None.

Definition frame_with_textures : host_frame :=
  Frame true (Some (1920, 1080)) true
        (Some (Texture 1920 1080 1)) (Some (Texture 1920 1080 1)).

Definition captured_instance : transform_instance :=
  set_cache_rendered true example_instance.

Definition mipmapped_instance : transform_instance :=
  transform_instance_new (obs_data_set_default_bool example_settings ST_KEY_MIPMAPPING true).

(** The instance with mipmapping after a first render pass. *)
Definition rendered_instance : transform_instance :=
  snd (fst (video_render frame_with_textures mipmapped_instance)).

(** ** The factory: the property panel *)

(** A property of the panel as the calls of [get_properties2] create it:
    [obs_properties_add_button2], [obs_properties_add_list] with the
    integers of its [obs_property_list_add_int] calls and whether a
    modified callback is set, [obs_properties_add_float] and
    [obs_properties_add_float_slider] with minimum, maximum and step,
    [obs_properties_add_bool], and [obs_properties_add_group] with the
    properties of the group.  Labels and suffixes are left out. *)
#[warnings="-register-all"]
Inductive obs_property :=
| property_button (name : string)
| property_list_int (name : string) (items : list Z) (modified_callback : bool)
| property_float (name : string) (slider : bool) (min max step : double_t)
| property_bool (name : string)
| property_group (name : string) (content : list obs_property).

Definition property_name (p : obs_property) : string :=
  match p with
  | property_button name | property_list_int name _ _ | property_float name _ _ _ _
  | property_bool name | property_group name _ => name
  end.

(** The properties that edit a setting, groups opened. *)
Fixpoint setting_properties (p : obs_property) : list obs_property :=
  match p with
  | property_button _ => []
  | property_group _ content => flat_map setting_properties content
  | _ => [p]
  end.

(** The names that [obs_properties_get] finds, groups included. *)
Fixpoint property_names (p : obs_property) : list string :=
  match p with
  | property_group name content => name :: flat_map property_names content
  | _ => [property_name p]
  end.

(** The values that a property lets the user choose. *)
Definition property_admits (p : obs_property) (v : obs_value) : bool :=
  match p, v with
  | property_list_int _ items _, val_number (num_int i) => bool_decide (i ∈ items)
  | property_float _ _ min max _, val_number (num_double d) => SFleb min d && SFleb d max
  | property_bool _, val_bool _ => true
  | _, _ => false
  end.

Definition ST_I18N_CAMERA : string := "Filter.Transform.Camera".

(** [std::numeric_limits<float_t>::max()] and the literal [0.01], as
    doubles. *)
Definition FLT_MAX : double_t := Float64.of_Z ((2 ^ 24 - 1) * 2 ^ 104).
Definition double_0_01 : double_t := S754_finite false 5764607523034235 (-59).

Section Panel.
(** Whether the frontend is compiled in, and the two names that come from
    the strings header, which is not part of the sources. *)
Variable ENABLE_FRONTEND : bool.
Variables S_MANUAL_OPEN S_ADVANCED : string.

(** [transform_factory::get_properties2]: the properties of [pr] in the
    order of their creation. *)
Definition get_properties2 : list obs_property :=
  (if ENABLE_FRONTEND then [property_button S_MANUAL_OPEN] else [])
  ++ [ (* Camera *)
       property_group ST_I18N_CAMERA
         [ property_list_int ST_KEY_CAMERA_MODE
             [CameraMode_value Orthographic; CameraMode_value Perspective] true;
           property_float ST_KEY_CAMERA_FIELDOFVIEW true
             (Float64.of_Z 1) (Float64.of_Z 179) double_0_01 ];
       (* Position *)
       property_group ST_I18N_POSITION
         (map (fun opt => property_float opt false (SFopp FLT_MAX) FLT_MAX double_0_01)
              [ST_KEY_POSITION_X; ST_KEY_POSITION_Y; ST_KEY_POSITION_Z]);
       (* Rotation *)
       property_group ST_I18N_ROTATION
         (map (fun opt => property_float opt true
                            (Float64.of_Z (-180)) (Float64.of_Z 180) double_0_01)
              [ST_KEY_ROTATION_X; ST_KEY_ROTATION_Y; ST_KEY_ROTATION_Z]);
       (* Scale *)
       property_group ST_I18N_SCALE
         (map (fun opt => property_float opt true
                            (Float64.of_Z (-1000)) (Float64.of_Z 1000) double_0_01)
              [ST_KEY_SCALE_X; ST_KEY_SCALE_Y]);
       (* Shear *)
       property_group ST_I18N_SHEAR
         (map (fun opt => property_float opt true
                            (Float64.of_Z (-200)) (Float64.of_Z 200) double_0_01)
              [ST_KEY_SHEAR_X; ST_KEY_SHEAR_Y]);
       property_group S_ADVANCED
         [ (* Mip-mapping *)
           property_bool ST_KEY_MIPMAPPING;
           (* Order *)
           property_list_int ST_KEY_ROTATION_ORDER
             (map RotationOrder_value [XYZ; XZY; YXZ; YZX; ZXY; ZYX]) false ] ].
End Panel.

(** The names whose properties [modified_camera_mode] shows or hides. *)
Definition camera_mode_names : list string :=
  [ ST_KEY_CAMERA_FIELDOFVIEW; ST_I18N_POSITION; ST_KEY_POSITION_Z; ST_I18N_ROTATION;
    ST_I18N_SCALE; ST_I18N_SHEAR; ST_KEY_ROTATION_ORDER ].

(** * Properties *)

(** ** Settings *)

Lemma has_user_value_set_user_value settings name v name' :
  obs_data_has_user_value (set_user_value settings name v) name' =
  if decide (name = name') then true else obs_data_has_user_value settings name'.
Proof.
  unfold obs_data_has_user_value, set_user_value.
  rewrite lookup_insert. by case_decide.
Qed.

Lemma get_int_set_int settings name i :
  obs_data_get_int (obs_data_set_int settings name i) name = i.
Proof.
  unfold obs_data_get_int, obs_data_set_int, set_user_value.
  by rewrite lookup_insert_eq.
Qed.

Lemma get_double_set_double settings name d :
  obs_data_get_double (obs_data_set_double settings name d) name = d.
Proof.
  unfold obs_data_get_double, obs_data_set_double, set_user_value.
  by rewrite lookup_insert_eq.
Qed.

Lemma has_user_value_unset settings name :
  obs_data_has_user_value (obs_data_unset_user_value settings name) name = false.
Proof.
  unfold obs_data_has_user_value, obs_data_unset_user_value.
  destruct (settings !! name) as [it|] eqn:E.
  - by rewrite lookup_insert_eq.
  - by rewrite E.
Qed.

(** ** Migration *)

(** A copy whose first argument has no user value changes nothing. *)
Lemma COPY_UNSET_absent TYPE OLDNAME NEWNAME settings :
  obs_data_has_user_value settings OLDNAME = false ->
  COPY_UNSET TYPE OLDNAME NEWNAME settings = settings.
Proof. unfold COPY_UNSET. by intros ->. Qed.

(** A copy whose first argument has a user value stores what that key reads
    as under the second argument and removes the user value of the first:
    the value moves from the first name to the second. *)
Lemma COPY_UNSET_double_present OLDNAME NEWNAME settings :
  obs_data_has_user_value settings OLDNAME = true ->
  OLDNAME <> NEWNAME ->
  let settings' := COPY_UNSET type_double OLDNAME NEWNAME settings in
  obs_data_get_double settings' NEWNAME = obs_data_get_double settings OLDNAME
  /\ obs_data_has_user_value settings' OLDNAME = false.
Proof.
  intros Hold Hne. unfold COPY_UNSET. rewrite Hold. simpl. split.
  - unfold obs_data_unset_user_value, obs_data_set_double, set_user_value.
    rewrite lookup_insert_ne by congruence.
    destruct (settings !! OLDNAME) as [it|] eqn:E.
    + unfold obs_data_get_double at 1.
      rewrite lookup_insert_ne by done. by rewrite lookup_insert_eq.
    + unfold obs_data_get_double at 1. by rewrite lookup_insert_eq.
  - apply has_user_value_unset.
Qed.

(** C1 (evaluation of the code).  Below the 0.11.0.0 threshold, [migrate]
    leaves a value stored under the legacy key "Filter.Transform.Position.X"
    where it is: the current key "Position.X" that [update] reads still has
    no user value and reads as 0.  A user value stored under the current key
    is moved away to the legacy name instead.  Each migration statement
    passes the current key as the macro's OLDNAME and the legacy name as its
    NEWNAME. *)
Theorem migrate_moves_current_to_legacy
  (STREAMFX_MASK_UPDATE : Z) (STREAMFX_MAKE_VERSION : Z -> Z -> Z -> Z -> Z) (version : Z) :
  Z.land version STREAMFX_MASK_UPDATE < STREAMFX_MAKE_VERSION 0 11 0 0 ->
  let migrated := migrate STREAMFX_MASK_UPDATE STREAMFX_MAKE_VERSION legacy_settings version in
  let moved := migrate STREAMFX_MASK_UPDATE STREAMFX_MAKE_VERSION current_settings version in
  (obs_data_has_user_value migrated ST_KEY_POSITION_X = false
   /\ obs_data_get_double migrated ST_KEY_POSITION_X = S754_zero false
   /\ obs_data_get_double migrated "Filter.Transform.Position.X" = Float64.of_Z 50)
  /\ (obs_data_has_user_value moved ST_KEY_POSITION_X = false
      /\ obs_data_get_double moved ST_KEY_POSITION_X = S754_zero false
      /\ obs_data_get_double moved "Filter.Transform.Position.X" = Float64.of_Z 50).
Proof.
  intros Hlt. unfold migrate.
  apply Z.ltb_lt in Hlt. rewrite Hlt.
  destruct (_ <? STREAMFX_MAKE_VERSION 0 8 0 0); vm_compute; auto.
Qed.

Lemma migrate_moves_current_to_legacy_witness :
  Z.land 0 version_mask_update < version_make 0 11 0 0
  /\ obs_data_has_user_value (migrate version_mask_update version_make legacy_settings 0)
       ST_KEY_POSITION_X = false.
Proof.
  split; [reflexivity|].
  apply (migrate_moves_current_to_legacy version_mask_update version_make 0).
  reflexivity.
Defined.

(** Without a user value under any current key, the whole 0.11 block only
    stores the orthographic camera mode: no legacy name is read. *)
Lemma migrate_0_11_without_current_keys settings :
  Forall (fun '(_, OLDNAME, _) => obs_data_has_user_value settings OLDNAME = false)
         migrate_0_11_copies ->
  migrate_0_11 settings =
  obs_data_set_int settings ST_KEY_CAMERA_MODE (CameraMode_value Orthographic).
Proof.
  intros Hall. unfold migrate_0_11.
  assert (Hfold : fold_left (fun s '(TYPE, OLDNAME, NEWNAME) => COPY_UNSET TYPE OLDNAME NEWNAME s)
                            migrate_0_11_copies settings = settings).
  { induction Hall as [|[[TYPE OLDNAME] NEWNAME] l Hx _ IH]; [done|].
    simpl. by rewrite COPY_UNSET_absent. }
  rewrite Hfold.
  assert (Hmode : obs_data_has_user_value settings ST_KEY_CAMERA_MODE = false).
  { by inversion Hall. }
  unfold SET_IF_UNSET_int. by rewrite Hmode.
Qed.

(** ** update *)

Lemma parameters_update settings st :
  parameters (update settings st) =
  {| camera_orthographic := obs_data_get_int settings ST_KEY_CAMERA_MODE =? 0;
     field_of_view := Float32.of_double (obs_data_get_double settings ST_KEY_CAMERA_FIELDOFVIEW);
     param_position := vec3_set (percent settings ST_KEY_POSITION_X)
                                (percent settings ST_KEY_POSITION_Y)
                                (percent settings ST_KEY_POSITION_Z);
     param_rotation := vec3_set (degrees settings ST_KEY_ROTATION_X)
                                (degrees settings ST_KEY_ROTATION_Y)
                                (degrees settings ST_KEY_ROTATION_Z);
     rotation_order := to_uint32 (obs_data_get_int settings ST_KEY_ROTATION_ORDER);
     param_scale := vec3_set (percent settings ST_KEY_SCALE_X)
                             (percent settings ST_KEY_SCALE_Y)
                             Float32.one;
     param_shear := vec3_set (percent settings ST_KEY_SHEAR_X)
                             (percent settings ST_KEY_SHEAR_Y)
                             Float32.zero;
     mipmap_enabled := obs_data_get_bool settings ST_KEY_MIPMAPPING |}.
Proof. reflexivity. Qed.

(** C8.  [update] is idempotent: a second call with the same settings
    leaves the instance, hence its transform parameters, exactly as the
    first call left it, whatever the instance was before; the parameters are
    a function of the settings alone, with every percent value divided by
    100 and every degree value divided by 180 and multiplied by pi; and the
    mesh is marked dirty after the first call and after the second. *)
Theorem update_idempotent (settings : obs_data_t) (st : transform_instance) :
  update settings (update settings st) = update settings st
  /\ parameters (update settings (update settings st)) = parameters (update settings st)
  /\ (forall st', parameters (update settings st') = parameters (update settings st))
  /\ (forall name,
        percent settings name =
        Float32.of_double (Float64.div (obs_data_get_double settings name) (Float64.of_Z 100)))
  /\ (forall name,
        degrees settings name =
        Float32.of_double
          (Float64.mul (Float64.div (obs_data_get_double settings name) (Float64.of_Z 180))
                       S_PI))
  /\ _update_mesh (update settings st) = true
  /\ _update_mesh (update settings (update settings st)) = true.
Proof. repeat split. Qed.

(** C9.  After [update] the camera is orthographic exactly when
    [Camera.Mode] reads as the integer 0.  Any other integer, 2 and -1
    included, selects the perspective path: the transform pass sets up
    [gs_perspective] and the mesh takes the aspect ratio of the source. *)
Theorem update_camera_mode (settings : obs_data_t) (st : transform_instance) :
  (_camera_orthographic (update settings st) = true
   <-> obs_data_get_int settings ST_KEY_CAMERA_MODE = 0)
  /\ (forall mode bw bh,
        mode <> 0 ->
        let st' := update (obs_data_set_int settings ST_KEY_CAMERA_MODE mode) st in
        _camera_orthographic st' = false
        /\ projection st' bw bh =
           gs_perspective (_camera_fov st')
                          (Float32.div (Float32.of_Z bw) (Float32.of_Z bh)) nearZ farZ
        /\ aspect_ratio st' bw bh = Float32.div (Float32.of_Z bw) (Float32.of_Z bh))
  /\ (forall bw bh,
        let st' := update (obs_data_set_int settings ST_KEY_CAMERA_MODE 0) st in
        _camera_orthographic st' = true
        /\ projection st' bw bh =
           gs_ortho (Float32.of_Z (-1)) Float32.one (Float32.of_Z (-1)) Float32.one
                    (Float32.opp farZ) farZ
        /\ aspect_ratio st' bw bh = Float32.one)
  /\ _camera_orthographic (update (obs_data_set_int settings ST_KEY_CAMERA_MODE 2) st) = false
  /\ _camera_orthographic (update (obs_data_set_int settings ST_KEY_CAMERA_MODE (-1)) st) = false.
Proof.
  split; [|split; [|split; [|split]]].
  - simpl. apply Z.eqb_eq.
  - intros mode bw bh Hmode st'.
    assert (Hortho : _camera_orthographic st' = false).
    { subst st'. simpl. rewrite get_int_set_int. by apply Z.eqb_neq. }
    unfold projection, aspect_ratio. by rewrite Hortho.
  - intros bw bh st'.
    assert (Hortho : _camera_orthographic st' = true).
    { subst st'. simpl. by rewrite get_int_set_int. }
    unfold projection, aspect_ratio. by rewrite Hortho.
  - simpl. by rewrite get_int_set_int.
  - simpl. by rewrite get_int_set_int.
Qed.

(** ** Floating point *)

(** Multiplying a binary32 number by 1.0f returns it. *)
Lemma Float32_mul_one_l (x : float_t) :
  Float32.valid x = true -> Float32.mul Float32.one x = x.
Proof.
  destruct x as [s|s| |s m e]; try reflexivity.
  intros Hv. unfold Float32.valid, valid_binary, bounded in Hv.
  apply andb_prop in Hv as [Hc Hb].
  unfold canonical_mantissa in Hc. apply Z.eqb_eq in Hc.
  change (Float32.mul Float32.one (S754_finite s m e))
    with (binary_round_aux Float32.prec Float32.emax s
            (Zpos m~0~0~0~0~0~0~0~0~0~0~0~0~0~0~0~0~0~0~0~0~0~0~0) (-23 + e) loc_Exact).
  unfold binary_round_aux, shr_fexp.
  assert (Hd : Zdigits2 (Zpos m~0~0~0~0~0~0~0~0~0~0~0~0~0~0~0~0~0~0~0~0~0~0~0) + (-23 + e)
               = Zpos (digits2_pos m) + e).
  { unfold Zdigits2. simpl digits2_pos. rewrite !Pos2Z.inj_succ. lia. }
  rewrite Hd, Hc.
  replace (e - (-23 + e)) with 23 by lia.
  simpl shr. simpl round_nearest_even.
  replace (-23 + e + 23) with e by lia.
  change (round_nearest_even
            (shr_m {| shr_m := Z.pos m; shr_r := false; shr_s := false |})
            (loc_of_shr_record
               {| shr_m := Z.pos m; shr_r := false; shr_s := false |})) with (Z.pos m).
  change (Zdigits2 (Z.pos m)) with (Z.pos (digits2_pos m)).
  rewrite Hc, Z.sub_diag. simpl. by rewrite Hb.
Qed.

(** ** The mesh builder *)

Lemma RotationOrder_case_value o : RotationOrder_case (RotationOrder_value o) = Some o.
Proof. by destruct o. Qed.

Lemma RotationOrder_case_None n : ~ (0 <= n <= 5) -> RotationOrder_case n = None.
Proof.
  intros Hn. unfold RotationOrder_case. simpl.
  repeat match goal with
         | |- context [n =? ?k] => destruct (Z.eqb_spec n k); [lia|]
         end.
  reflexivity.
Qed.

Section MeshProperties.
Context `{Matrix4Ops}.

(** What the "Generate mesh" blocks leave in a buffer of four vertices. *)
Lemma update_mesh_vertices (st : transform_instance) (width height : Z) :
  length (_vertex_buffer st) = 4%nat ->
  let p_x := Float32.mul (aspect_ratio st (if width =? 0 then 1 else width)
                                       (if height =? 0 then 1 else height))
                         (vx (_scale st)) in
  let p_y := Float32.mul Float32.one (vy (_scale st)) in
  _vertex_buffer (update_mesh width height st) =
  map (fun '(uv, corner) => Vertex (vec3_transform corner (mesh_matrix st)) 0xFFFFFFFF uv)
      (untransformed_corners p_x p_y (_shear st)).
Proof.
  intros Hlen p_x p_y.
  unfold update_mesh. simpl.
  destruct (_vertex_buffer st) as [|v0 [|v1 [|v2 [|v3 [|]]]]]; try discriminate.
  reflexivity.
Qed.

Lemma update_mesh_length (st : transform_instance) (width height : Z) :
  length (_vertex_buffer (update_mesh width height st)) = length (_vertex_buffer st).
Proof. unfold update_mesh, write_vertex. simpl. by rewrite !length_insert. Qed.

(** The matrix for a rotation order that has a case label. *)
Lemma mesh_matrix_case (o : RotationOrder) (st : transform_instance) :
  _rotation_order st = RotationOrder_value o ->
  mesh_matrix st =
  matrix4_translate3f
    (fold_left (rotate_about (_rotation st)) (axis_sequence o) matrix4_identity)
    (vx (_position st)) (vy (_position st)) (vz (_position st)).
Proof.
  intros Ho. unfold mesh_matrix. rewrite Ho, RotationOrder_case_value.
  by destruct o.
Qed.

(** The matrix for a value of [_rotation_order] without a case label. *)
Lemma mesh_matrix_default (st : transform_instance) :
  ~ (0 <= _rotation_order st <= 5) ->
  mesh_matrix st =
  matrix4_translate3f matrix4_identity
                      (vx (_position st)) (vy (_position st)) (vz (_position st)).
Proof. intros Ho. unfold mesh_matrix. by rewrite RotationOrder_case_None. Qed.

(** The tick rebuilds the mesh exactly when the flag is set after the size
    check. *)
Lemma video_tick_unfold (target : option (Z * Z)) (st : transform_instance) :
  let width := match target with Some (w, _) => w | None => 0 end in
  let height := match target with Some (_, h) => h | None => 0 end in
  video_tick target st =
  clear_rendered (if _update_mesh (check_size width height st)
                  then update_mesh width height (check_size width height st)
                  else check_size width height st).
Proof. reflexivity. Qed.

Lemma check_size_update_mesh (width height : Z) (st : transform_instance) :
  _update_mesh (check_size width height st) =
  negb (width =? fst (_source_size st)) || negb (height =? snd (_source_size st))
  || _update_mesh st.
Proof.
  unfold check_size.
  destruct (width =? _); destruct (height =? _); simpl; try reflexivity.
Qed.

Lemma check_size_changed (width height : Z) (st : transform_instance) :
  width <> fst (_source_size st) \/ height <> snd (_source_size st) ->
  check_size width height st = set_update_mesh true st.
Proof.
  intros Hne. unfold check_size.
  destruct (Z.eqb_spec width (fst (_source_size st)));
    destruct (Z.eqb_spec height (snd (_source_size st))); simpl; try reflexivity.
  tauto.
Qed.
End MeshProperties.

Section MeshClaims.
Context `{Matrix4Ops}.

(** C3.  For a positive source extent and a buffer of four vertices, the
    mesh rebuild writes the four corners (-p_x + shear.x, -p_y - shear.y, 0),
    (p_x + shear.x, -p_y + shear.y, 0), (-p_x - shear.x, p_y - shear.y, 0) and
    (p_x - shear.x, p_y + shear.y, 0), each passed through [vec3_transform]
    and paired with the texture coordinates (0,0), (1,0), (0,1), (1,1) and the
    colour white, where p_x = aspect * scale.x, p_y = scale.y, and aspect is
    width / height for the perspective camera and 1 for the orthographic one
    (so that p_x = scale.x there, whatever the source size).  For the
    example settings on an 800x600 source the corners before the transform
    are (-1,-1,0), (1,-1,0), (-1,1,0) and (1,1,0). *)
Theorem update_mesh_corners (st : transform_instance) (width height : Z) :
  0 < width -> 0 < height ->
  length (_vertex_buffer st) = 4%nat ->
  Float32.valid (vx (_scale st)) = true ->
  Float32.valid (vy (_scale st)) = true ->
  let aspect := if _camera_orthographic st then Float32.one
                else Float32.div (Float32.of_Z width) (Float32.of_Z height) in
  let p_x := Float32.mul aspect (vx (_scale st)) in
  let p_y := vy (_scale st) in
  let shear := _shear st in
  let '(f0, f1, minus_one) := (Float32.zero, Float32.one, Float32.of_Z (-1)) in
  let vtx u v x y :=
    Vertex (vec3_transform (vec3_set x y f0) (mesh_matrix st)) 0xFFFFFFFF (vec4_set u v f0 f0) in
  _vertex_buffer (update_mesh width height st) =
    [ vtx f0 f0 (Float32.add (Float32.opp p_x) (vx shear))
                (Float32.sub (Float32.opp p_y) (vy shear));
      vtx f1 f0 (Float32.add p_x (vx shear))
                (Float32.add (Float32.opp p_y) (vy shear));
      vtx f0 f1 (Float32.sub (Float32.opp p_x) (vx shear))
                (Float32.sub p_y (vy shear));
      vtx f1 f1 (Float32.sub p_x (vx shear))
                (Float32.add p_y (vy shear)) ]
  /\ (_camera_orthographic st = true -> p_x = vx (_scale st))
  /\ (let st800 := example_instance in
      let vtx u v x y :=
        Vertex (vec3_transform (vec3_set x y f0) (mesh_matrix st800)) 0xFFFFFFFF
               (vec4_set u v f0 f0) in
      _vertex_buffer (video_tick (Some (800, 600)) st800) =
        [ vtx f0 f0 minus_one minus_one;
          vtx f1 f0 f1 minus_one;
          vtx f0 f1 minus_one f1;
          vtx f1 f1 f1 f1 ]).
Proof.
  intros Hw Hh Hlen Hsx Hsy aspect p_x p_y shear. cbv zeta.
  split; [|split].
  - rewrite update_mesh_vertices by done.
    destruct (Z.eqb_spec width 0); [lia|]. destruct (Z.eqb_spec height 0); [lia|].
    rewrite Float32_mul_one_l by done. reflexivity.
  - intros Hortho. subst p_x aspect. rewrite Hortho. by apply Float32_mul_one_l.
  - vm_compute. reflexivity.
Qed.

(** C4.  When [_rotation_order] holds the value of a rotation order [o],
    the matrix of the mesh is the identity rotated about the three axes in
    the sequence that the name of [o] lists, each by the angle of that
    axis, then translated by the position; every vertex of the rebuilt mesh
    is a corner transformed by that matrix.  If the libobs primitives
    right-multiply (rotate = multiply by the axis-angle matrix, translate =
    multiply by the translation matrix), the matrix is the product
    identity * R(a1) * R(a2) * R(a3) * T(position) for the axes a1, a2, a3
    of [o]; for XZY these are X, Z, Y. *)
Theorem mesh_matrix_rotation_order (o : RotationOrder) (st : transform_instance)
  (width height : Z) :
  _rotation_order st = RotationOrder_value o ->
  length (_vertex_buffer st) = 4%nat ->
  let rotated := fold_left (rotate_about (_rotation st)) (axis_sequence o) matrix4_identity in
  let M := matrix4_translate3f rotated
             (vx (_position st)) (vy (_position st)) (vz (_position st)) in
  mesh_matrix st = M
  /\ Forall (fun v => exists corner, position v = vec3_transform corner M)
            (_vertex_buffer (update_mesh width height st))
  /\ (forall (matrix4_mul : matrix4 -> matrix4 -> matrix4)
             (matrix4_from_axisang : float_t -> float_t -> float_t -> float_t -> matrix4)
             (matrix4_from_translation : float_t -> float_t -> float_t -> matrix4),
        (forall m x y z rot,
            matrix4_rotate_aa4f m x y z rot = matrix4_mul m (matrix4_from_axisang x y z rot)) ->
        (forall m x y z,
            matrix4_translate3f m x y z = matrix4_mul m (matrix4_from_translation x y z)) ->
        let R a := matrix4_from_axisang (vx (axis_unit a)) (vy (axis_unit a)) (vz (axis_unit a))
                                        (axis_angle (_rotation st) a) in
        let T := matrix4_from_translation
                   (vx (_position st)) (vy (_position st)) (vz (_position st)) in
        mesh_matrix st =
          matrix4_mul (fold_left (fun m a => matrix4_mul m (R a)) (axis_sequence o)
                                 matrix4_identity) T
        /\ (o = XZY ->
            mesh_matrix st =
              matrix4_mul
                (matrix4_mul
                   (matrix4_mul (matrix4_mul matrix4_identity (R axis_x)) (R axis_z))
                   (R axis_y))
                T)).
Proof.
  intros Ho Hlen rotated M.
  assert (HM : mesh_matrix st = M) by by apply mesh_matrix_case.
  split; [done|split].
  - rewrite update_mesh_vertices by done. rewrite HM.
    apply Forall_map, Forall_forall. intros [uv corner] _. simpl. by exists corner.
  - intros mul axisang translation Hrot Htr R T.
    assert (Hprod : mesh_matrix st =
                    mul (fold_left (fun m a => mul m (R a)) (axis_sequence o) matrix4_identity)
                        T).
    { rewrite HM. subst M rotated T R. rewrite Htr.
      destruct o; simpl; unfold rotate_about; by rewrite !Hrot. }
    split; [done|]. intros ->. exact Hprod.
Qed.

(** C6.  The size check of a tick sets the rebuild flag exactly when the
    width differs from the stored width, or the height differs from the
    stored height, or the flag was set already.  When either dimension
    differs, the tick rebuilds the mesh for the new dimensions and stores
    them; a change of the height alone, the width being equal, does so too.
    Without a change and without the flag the tick only clears the rendered
    flags. *)
Theorem video_tick_size_change (target : option (Z * Z)) (st : transform_instance) :
  let width := match target with Some (w, _) => w | None => 0 end in
  let height := match target with Some (_, h) => h | None => 0 end in
  _update_mesh (check_size width height st) =
    negb (width =? fst (_source_size st)) || negb (height =? snd (_source_size st))
    || _update_mesh st
  /\ (width <> fst (_source_size st) \/ height <> snd (_source_size st) ->
      _update_mesh (check_size width height st) = true
      /\ video_tick target st =
         clear_rendered (update_mesh width height (set_update_mesh true st))
      /\ _source_size (video_tick target st) = (width, height))
  /\ (width = fst (_source_size st) -> height <> snd (_source_size st) ->
      _update_mesh (check_size width height st) = true
      /\ video_tick target st =
         clear_rendered (update_mesh width height (set_update_mesh true st)))
  /\ (width = fst (_source_size st) -> height = snd (_source_size st) ->
      _update_mesh st = false ->
      video_tick target st = clear_rendered st).
Proof.
  intros width height.
  assert (Hchanged : width <> fst (_source_size st) \/ height <> snd (_source_size st) ->
                     _update_mesh (check_size width height st) = true
                     /\ video_tick target st =
                        clear_rendered (update_mesh width height (set_update_mesh true st))).
  { intros Hne. rewrite video_tick_unfold. fold width height.
    by rewrite check_size_changed. }
  split; [apply check_size_update_mesh|split; [|split]].
  - intros Hne. destruct (Hchanged Hne) as [Hflag Htick].
    repeat split; [done..|]. by rewrite Htick.
  - intros _ Hh. apply Hchanged. by right.
  - intros Hw Hh Hflag. rewrite video_tick_unfold. fold width height.
    unfold check_size. rewrite Hw, Hh, !Z.eqb_refl. simpl. by rewrite Hflag.
Qed.

(** C10.  When [_rotation_order] is outside 0..5 no case of the switch is
    taken: the matrix of the mesh is the identity translated by the
    position, without any rotation, and the rebuilt vertices are the
    untransformed corners passed through that translation. *)
Theorem mesh_matrix_no_case (st : transform_instance) (width height : Z) :
  ~ (0 <= _rotation_order st <= 5) ->
  length (_vertex_buffer st) = 4%nat ->
  let T := matrix4_translate3f matrix4_identity
             (vx (_position st)) (vy (_position st)) (vz (_position st)) in
  RotationOrder_case (_rotation_order st) = None
  /\ mesh_matrix st = T
  /\ _vertex_buffer (update_mesh width height st) =
     map (fun '(uv, corner) => Vertex (vec3_transform corner T) 0xFFFFFFFF uv)
         (untransformed_corners
            (Float32.mul (aspect_ratio st (if width =? 0 then 1 else width)
                                          (if height =? 0 then 1 else height))
                         (vx (_scale st)))
            (Float32.mul Float32.one (vy (_scale st)))
            (_shear st)).
Proof.
  intros Ho Hlen T. split; [by apply RotationOrder_case_None|].
  assert (HT : mesh_matrix st = T) by by apply mesh_matrix_default.
  split; [done|]. rewrite update_mesh_vertices by done. by rewrite HT.
Qed.
End MeshClaims.

Lemma update_mesh_corners_witness :
  0 < 800 /\ 0 < 600
  /\ length (_vertex_buffer example_instance) = 4%nat
  /\ Float32.valid (vx (_scale example_instance)) = true
  /\ Float32.valid (vy (_scale example_instance)) = true
  /\ _vertex_buffer (@update_mesh translation_ops 800 600 example_instance) =
     _vertex_buffer (@video_tick translation_ops (Some (800, 600)) example_instance).
Proof.
  pose proof (@update_mesh_corners translation_ops example_instance 800 600
                ltac:(lia) ltac:(lia) eq_refl eq_refl eq_refl) as Hc.
  cbv zeta in Hc. destruct Hc as (Hvb & _ & Hex).
  split; [reflexivity|]. split; [reflexivity|]. split; [reflexivity|].
  split; [reflexivity|]. split; [reflexivity|].
  exact (eq_trans Hvb (eq_sym Hex)).
Defined.

Lemma mesh_matrix_rotation_order_witness :
  _rotation_order example_instance = RotationOrder_value XYZ
  /\ length (_vertex_buffer example_instance) = 4%nat
  /\ @mesh_matrix translation_ops example_instance =
     vec3_add (vec3_add (vec3_add (vec3_add vec3_zero vec3_zero) vec3_zero) vec3_zero)
              (_position example_instance).
Proof.
  pose proof (@mesh_matrix_rotation_order translation_ops XYZ example_instance 800 600
                eq_refl eq_refl) as Hc.
  cbv zeta in Hc. destruct Hc as (_ & _ & Hprod).
  destruct (Hprod vec3_add (fun _ _ _ _ => vec3_zero) vec3_set
                  (fun _ _ _ _ _ => eq_refl) (fun _ _ _ _ => eq_refl)) as [Hm _].
  split; [reflexivity|]. split; [reflexivity|]. exact Hm.
Defined.

Lemma video_tick_size_change_witness :
  800 = fst (_source_size ticked_instance)
  /\ 480 <> snd (_source_size ticked_instance)
  /\ _update_mesh (check_size 800 480 ticked_instance) = true.
Proof.
  assert (Hw : 800 = fst (_source_size ticked_instance)) by reflexivity.
  assert (Hh : 480 <> snd (_source_size ticked_instance)) by (vm_compute; discriminate).
  split; [exact Hw|split; [exact Hh|]].
  pose proof (@video_tick_size_change translation_ops (Some (800, 480)) ticked_instance) as Hc.
  cbv zeta in Hc. destruct Hc as (_ & _ & Hheight & _).
  exact (proj1 (Hheight Hw Hh)).
Defined.

Lemma mesh_matrix_no_case_witness :
  ~ (0 <= _rotation_order unordered_instance <= 5)
  /\ length (_vertex_buffer unordered_instance) = 4%nat
  /\ @mesh_matrix translation_ops unordered_instance =
     vec3_add vec3_zero (_position unordered_instance).
Proof.
  assert (Ho : ~ (0 <= _rotation_order unordered_instance <= 5)).
  { vm_compute. intros [_ Hle]. by apply Hle. }
  split; [exact Ho|split; [reflexivity|]].
  pose proof (@mesh_matrix_no_case translation_ops unordered_instance 800 600 Ho eq_refl)
    as Hc.
  cbv zeta in Hc. destruct Hc as (_ & Hm & _). exact Hm.
Defined.

(** C7.  When the target reports a width or a height of zero, the mesh
    rebuild replaces each zero dimension by 1 and leaves a non-zero one as
    it is, before the aspect ratio is computed: the dimensions that reach
    the division are at least 1, the divisor [float_t(1)] of a zero height
    is the number 1.0, and the mesh is the one of the extent with the zeros
    replaced.  Only the stored source size keeps the reported zeros. *)
Theorem update_mesh_zero_dimension `{Matrix4Ops} (st : transform_instance)
  (width height : Z) :
  0 <= width -> 0 <= height -> width = 0 \/ height = 0 ->
  let width' := if width =? 0 then 1 else width in
  let height' := if height =? 0 then 1 else height in
  (width = 0 -> width' = 1) /\ (height = 0 -> height' = 1)
  /\ (width <> 0 -> width' = width) /\ (height <> 0 -> height' = height)
  /\ 1 <= width' /\ 1 <= height'
  /\ (height = 0 -> Float32.of_Z height' = S754_finite false 8388608 (-23))
  /\ update_mesh width height st =
     set_source_size (width, height) (update_mesh width' height' st)
  /\ _vertex_buffer (update_mesh width height st) =
     _vertex_buffer (update_mesh width' height' st)
  /\ (length (_vertex_buffer st) = 4%nat ->
      _vertex_buffer (update_mesh width height st) =
      map (fun '(uv, corner) => Vertex (vec3_transform corner (mesh_matrix st)) 0xFFFFFFFF uv)
          (untransformed_corners
             (Float32.mul (aspect_ratio st width' height') (vx (_scale st)))
             (Float32.mul Float32.one (vy (_scale st)))
             (_shear st))).
Proof.
  intros Hw Hh Hzero width' height'.
  assert (Hw' : (if width' =? 0 then 1 else width') = width').
  { subst width'. destruct (Z.eqb_spec width 0); [reflexivity|].
    by destruct (Z.eqb_spec width 0). }
  assert (Hh' : (if height' =? 0 then 1 else height') = height').
  { subst height'. destruct (Z.eqb_spec height 0); [reflexivity|].
    by destruct (Z.eqb_spec height 0). }
  assert (Heq : update_mesh width height st =
                set_source_size (width, height) (update_mesh width' height' st)).
  { unfold update_mesh. simpl. rewrite Hw', Hh'. reflexivity. }
  assert (Hvb : length (_vertex_buffer st) = 4%nat ->
                _vertex_buffer (update_mesh width height st) =
                map (fun '(uv, corner) =>
                       Vertex (vec3_transform corner (mesh_matrix st)) 0xFFFFFFFF uv)
                    (untransformed_corners
                       (Float32.mul (aspect_ratio st width' height') (vx (_scale st)))
                       (Float32.mul Float32.one (vy (_scale st)))
                       (_shear st))).
  { intros Hlen. by rewrite update_mesh_vertices. }
  assert (Hsame : _vertex_buffer (update_mesh width height st) =
                  _vertex_buffer (update_mesh width' height' st)) by by rewrite Heq.
  assert (Harith : (width = 0 -> width' = 1) /\ (height = 0 -> height' = 1)
                   /\ (width <> 0 -> width' = width) /\ (height <> 0 -> height' = height)
                   /\ 1 <= width' /\ 1 <= height').
  { subst width' height'.
    destruct (Z.eqb_spec width 0); destruct (Z.eqb_spec height 0); repeat split; lia. }
  destruct Harith as (H1 & H2 & H3 & H4 & H5 & H6).
  do 6 (split; [assumption|]).
  split; [|by repeat split].
  intros Hheight. by rewrite (H2 Hheight).
Qed.

Lemma update_mesh_zero_dimension_witness :
  0 <= 0 /\ 0 <= 600 /\ (0 = 0 \/ 600 = 0)
  /\ _vertex_buffer (@update_mesh translation_ops 0 600 example_instance) =
     _vertex_buffer (@update_mesh translation_ops 1 600 example_instance).
Proof.
  assert (H0 : 0 <= 0) by lia. assert (H600 : 0 <= 600) by lia.
  assert (Hz : 0 = 0 \/ 600 = 0) by (left; reflexivity).
  split; [exact H0|]. split; [exact H600|]. split; [exact Hz|].
  pose proof (@update_mesh_zero_dimension translation_ops example_instance 0 600 H0 H600 Hz)
    as Hc.
  cbv zeta in Hc. destruct Hc as (_ & _ & _ & _ & _ & _ & _ & _ & Hvb & _).
  exact Hvb.
Defined.

(** ** The render pass *)

Lemma run_ret_bind {A B} (a : A) (k : A -> render B) st : (mret a ≫= k) st = k a st.
Proof. unfold mbind, render_bind, mret, render_ret. by destruct (k a st) as [[r st2] cs]. Qed.

Lemma run_get_bind {B} (k : transform_instance -> render B) st :
  (get_instance ≫= k) st = k st st.
Proof. unfold mbind, render_bind, get_instance. by destruct (k st st) as [[r st2] cs]. Qed.

Lemma run_assign_bind {B} f (k : unit -> render B) st : (assign f ≫= k) st = k tt (f st).
Proof. unfold mbind, render_bind, assign. by destruct (k tt (f st)) as [[r st2] cs]. Qed.

Lemma run_call_bind {B} c (k : unit -> render B) st :
  (call c ≫= k) st = (fst (fst (k tt st)), snd (fst (k tt st)), c :: snd (k tt st)).
Proof. unfold mbind, render_bind, call. by destruct (k tt st) as [[r st2] cs]. Qed.

Lemma run_skip_bind {B} (k : unit -> render B) st :
  (skip_and_return ≫= k) st = (Return, st, [obs_source_skip_video_filter]).
Proof. reflexivity. Qed.

Lemma run_bind_assoc {A B C} (m : render A) (f : A -> render B) (g : B -> render C) st :
  ((m ≫= f) ≫= g) st = (m ≫= (fun a => f a ≫= g)) st.
Proof.
  unfold mbind, render_bind.
  destruct (m st) as [[[a|] st1] c1]; [|done].
  destruct (f a st1) as [[[b|] st2] c2]; [|done].
  destruct (g b st2) as [[r st3] c3]. by rewrite app_assoc.
Qed.

Lemma when_true m : when true m = m.
Proof. reflexivity. Qed.

Lemma when_false m : when false m = mret tt.
Proof. reflexivity. Qed.

Ltac render_step :=
  first [ rewrite when_true | rewrite when_false
        | rewrite run_bind_assoc | rewrite run_ret_bind | rewrite run_get_bind
        | rewrite run_assign_bind | rewrite run_call_bind | rewrite run_skip_bind ];
  cbv beta.

(** The head of a render pass on a frame that passes the first check. *)
Ltac render_enter Hp Ht Hw Hh :=
  unfold video_render; rewrite Hp, Ht;
  apply Z.eqb_neq in Hw, Hh; rewrite Hw, Hh; simpl orb;
  do 3 render_step.

Lemma video_render_begin_fails (host : host_frame) (st : transform_instance) (w h : Z) :
  frame_parent host = true -> frame_target host = Some (w, h) -> w <> 0 -> h <> 0 ->
  _cache_rendered st = false -> frame_filter_begin host = false ->
  video_render host st =
  (Return, st,
   [ cache_rt_render (fst (cache_size (_mipmap_enabled st) w h))
                     (snd (cache_size (_mipmap_enabled st) w h));
     gs_ortho Float32.zero (Float32.of_Z w) Float32.zero (Float32.of_Z h)
              (Float32.of_Z (-1)) Float32.one;
     obs_source_process_filter_begin;
     obs_source_skip_video_filter ]).
Proof.
  intros Hp Ht Hw Hh Hc Hb. render_enter Hp Ht Hw Hh.
  destruct (cache_size (_mipmap_enabled st) w h) as [cw ch].
  rewrite Hc, Hb. simpl negb.
  repeat render_step. reflexivity.
Qed.

Lemma video_render_no_texture (host : host_frame) (st : transform_instance) (w h : Z) :
  frame_parent host = true -> frame_target host = Some (w, h) -> w <> 0 -> h <> 0 ->
  _cache_rendered st = true \/ frame_filter_begin host = true ->
  frame_cache_texture host = None ->
  exists calls,
    video_render host st =
    (Return, set_cache_texture None (set_cache_rendered true st),
     calls ++ [obs_source_skip_video_filter])
    /\ obs_source_skip_video_filter ∉ calls.
Proof.
  intros Hp Ht Hw Hh Hc Htex. render_enter Hp Ht Hw Hh.
  destruct (cache_size (_mipmap_enabled st) w h) as [cw ch].
  rewrite Htex.
  destruct (_cache_rendered st) eqn:Hr; simpl negb.
  - repeat render_step. simpl. exists []. split; [|apply not_elem_of_nil].
    destruct st; simpl in *. by rewrite Hr.
  - destruct Hc as [Hc|Hc]; [done|]. rewrite Hc.
    repeat render_step. simpl.
    eexists [_; _; _; _]. split; [reflexivity|].
    rewrite !not_elem_of_cons. repeat split; try discriminate. apply not_elem_of_nil.
Qed.

Lemma video_render_captures (host : host_frame) (st : transform_instance) (w h : Z) :
  frame_parent host = true -> frame_target host = Some (w, h) -> w <> 0 -> h <> 0 ->
  _cache_rendered st = false ->
  exists rest,
    snd (video_render host st) =
    cache_rt_render (fst (cache_size (_mipmap_enabled st) w h))
                    (snd (cache_size (_mipmap_enabled st) w h))
    :: gs_ortho Float32.zero (Float32.of_Z w) Float32.zero (Float32.of_Z h)
                (Float32.of_Z (-1)) Float32.one
    :: obs_source_process_filter_begin :: rest.
Proof.
  intros Hp Ht Hw Hh Hc. render_enter Hp Ht Hw Hh.
  destruct (cache_size (_mipmap_enabled st) w h) as [cw ch].
  rewrite Hc. simpl negb.
  repeat render_step. simpl. by eexists.
Qed.

(** C5 as stated fails: in a frame in which the capture begins and ends
    but the render target hands out no texture, the render pass signals
    skip and returns, yet the captured flag, unset before, is set. *)
Lemma video_render_no_texture_sets_flag :
  _cache_rendered example_instance = false
  /\ fst (fst (video_render frame_without_texture example_instance)) = Return
  /\ last (snd (video_render frame_without_texture example_instance)) =
     Some obs_source_skip_video_filter
  /\ _cache_rendered (snd (fst (video_render frame_without_texture example_instance))) = true.
Proof. vm_compute. auto. Qed.

(** C5 (amended).  On a frame with a parent and a target of non-zero size:
    if the capture is due and cannot begin, the pass signals skip as its
    last call and returns with the instance unchanged, so the captured flag
    stays unset; if the capture was done (earlier in the tick or just now)
    and the render target hands out no texture, the pass signals skip as its
    last call and returns with the captured flag set and the cached texture
    handle null, the transform parameters, the stored source size, the mesh
    and its dirty flag being unchanged.  The next tick clears the captured
    flag and keeps the parameters, and the render pass that follows starts
    the capture again. *)
Theorem video_render_skips (host : host_frame) (st : transform_instance) (w h : Z) :
  frame_parent host = true -> frame_target host = Some (w, h) -> w <> 0 -> h <> 0 ->
  (_cache_rendered st = false -> frame_filter_begin host = false ->
   exists calls,
     video_render host st = (Return, st, calls ++ [obs_source_skip_video_filter])
     /\ obs_source_skip_video_filter ∉ calls)
  /\ (_cache_rendered st = true \/ frame_filter_begin host = true ->
      frame_cache_texture host = None ->
      exists calls st',
        video_render host st = (Return, st', calls ++ [obs_source_skip_video_filter])
        /\ (obs_source_skip_video_filter ∉ calls)
        /\ _cache_rendered st' = true
        /\ _cache_texture st' = None
        /\ parameters st' = parameters st
        /\ _source_size st' = _source_size st
        /\ _vertex_buffer st' = _vertex_buffer st
        /\ _update_mesh st' = _update_mesh st)
  /\ (forall (M : Matrix4Ops) (target : option (Z * Z)) (st' : transform_instance),
        (_update_mesh st' = false -> fst (_source_size st') = w ->
         snd (_source_size st') = h -> target = Some (w, h) ->
         parameters (video_tick target st') = parameters st')
        /\ _cache_rendered (video_tick target st') = false
        /\ exists rest,
            snd (video_render host (video_tick target st')) =
            cache_rt_render
              (fst (cache_size (_mipmap_enabled (video_tick target st')) w h))
              (snd (cache_size (_mipmap_enabled (video_tick target st')) w h))
            :: gs_ortho Float32.zero (Float32.of_Z w) Float32.zero (Float32.of_Z h)
                        (Float32.of_Z (-1)) Float32.one
            :: obs_source_process_filter_begin :: rest).
Proof.
  intros Hp Ht Hw Hh. split; [|split].
  - intros Hc Hb. rewrite (video_render_begin_fails host st w h) by done.
    eexists [_; _; _]. split; [reflexivity|].
    rewrite !not_elem_of_cons. repeat split; try discriminate. apply not_elem_of_nil.
  - intros Hc Htex.
    destruct (video_render_no_texture host st w h Hp Ht Hw Hh Hc Htex) as (calls & Hr & Hn).
    exists calls, (set_cache_texture None (set_cache_rendered true st)).
    repeat split; done.
  - intros M target st'.
    assert (Hflag : _cache_rendered (video_tick target st') = false).
    { unfold video_tick. by destruct (_update_mesh (check_size _ _ st')). }
    split; [|split; [exact Hflag|]].
    + intros Hu Hsw Hsh ->. unfold video_tick, check_size.
      rewrite Hsw, Hsh, !Z.eqb_refl. simpl. by rewrite Hu.
    + by apply video_render_captures.
Qed.

Lemma video_render_skips_witness :
  frame_parent frame_without_texture = true
  /\ frame_target frame_without_texture = Some (1920, 1080)
  /\ 1920 <> 0 /\ 1080 <> 0
  /\ exists calls st',
      video_render frame_without_texture example_instance =
      (Return, st', calls ++ [obs_source_skip_video_filter])
      /\ _cache_rendered st' = true.
Proof.
  assert (Hw : 1920 <> 0) by discriminate. assert (Hh : 1080 <> 0) by discriminate.
  split; [reflexivity|]. split; [reflexivity|]. split; [exact Hw|]. split; [exact Hh|].
  destruct (video_render_skips frame_without_texture example_instance 1920 1080
              eq_refl eq_refl Hw Hh) as (_ & Htex & _).
  destruct (Htex (or_intror eq_refl) eq_refl) as (calls & st' & Hr & _ & Hflag & _).
  exists calls, st'. split; [exact Hr|exact Hflag].
Defined.

(** ** Cache sizing *)

Lemma to_uint32_pow2 (e : Z) :
  0 <= e -> to_uint32 (2 ^ e) = if e <? 32 then 2 ^ e else 0.
Proof.
  intros He. unfold to_uint32. destruct (Z.ltb_spec e 32) as [Hlt|Hge].
  - apply Z.mod_small. split; [apply Z.pow_nonneg; lia|].
    apply Z.pow_lt_mono_r; lia.
  - replace e with (32 + (e - 32)) by lia.
    rewrite Z.pow_add_r by lia. rewrite Z.mul_comm. apply Z.mod_mul.
    by apply Z.pow_nonzero.
Qed.

Lemma pow2_ceil_clamped_cases (v : Z) :
  let e := Z.log2_up v in
  pow2_ceil_clamped v = if e <? 15 then 2 ^ e else if e <? 32 then 16384 else 1.
Proof.
  intros e. unfold pow2_ceil_clamped, get_power_of_two_exponent_ceil. fold e.
  pose proof (Z.log2_up_nonneg v) as He. fold e in He.
  rewrite to_uint32_pow2 by done. unfold clamp.
  destruct (Z.ltb_spec e 15) as [H15|H15].
  - assert (Hlt : (e <? 32) = true) by lia. rewrite Hlt.
    assert (1 <= 2 ^ e) by (apply (Z.pow_le_mono_r 2 0 e); lia).
    assert (2 ^ e <= 2 ^ 14) by (apply Z.pow_le_mono_r; lia).
    change (2 ^ 14) with 16384 in *.
    destruct (Z.ltb_spec (2 ^ e) 1); [lia|]. destruct (Z.ltb_spec 16384 (2 ^ e)); lia.
  - destruct (Z.ltb_spec e 32) as [H32|H32]; [|reflexivity].
    assert (2 ^ 15 <= 2 ^ e) by (apply Z.pow_le_mono_r; lia).
    change (2 ^ 15) with 32768 in *.
    destruct (Z.ltb_spec (2 ^ e) 1); [lia|]. destruct (Z.ltb_spec 16384 (2 ^ e)); lia.
Qed.

(** What the snapping of one axis returns: a power of two between 1 and
    16384; for a dimension up to 16384 the least power of two that is not
    below it; for a larger one 16384. *)
Lemma pow2_ceil_clamped_spec (v : Z) :
  (exists e, 0 <= e <= 14 /\ pow2_ceil_clamped v = 2 ^ e)
  /\ 1 <= pow2_ceil_clamped v <= 16384
  /\ (1 <= v <= 16384 ->
      v <= pow2_ceil_clamped v
      /\ forall e, 0 <= e -> v <= 2 ^ e -> pow2_ceil_clamped v <= 2 ^ e)
  /\ (16384 < v <= 2 ^ 31 -> pow2_ceil_clamped v = 16384).
Proof.
  rewrite pow2_ceil_clamped_cases. cbv zeta.
  pose proof (Z.log2_up_nonneg v) as He.
  assert (Hpow : exists e, 0 <= e <= 14
                           /\ (if Z.log2_up v <? 15 then 2 ^ Z.log2_up v
                               else if Z.log2_up v <? 32 then 16384 else 1) = 2 ^ e).
  { destruct (Z.ltb_spec (Z.log2_up v) 15); [exists (Z.log2_up v); lia|].
    destruct (Z.ltb_spec (Z.log2_up v) 32); [by exists 14|by exists 0]. }
  split; [exact Hpow|split; [|split]].
  - destruct Hpow as (e & He' & ->). split.
    + apply (Z.pow_le_mono_r 2 0 e); lia.
    + apply (Z.pow_le_mono_r 2 e 14); lia.
  - intros Hv.
    assert (Hle : Z.log2_up v <= 14) by (apply Z.log2_up_le_pow2; [lia|]; simpl; lia).
    assert (Hlt : (Z.log2_up v <? 15) = true) by lia. rewrite Hlt.
    split.
    + apply Z.log2_up_le_pow2; lia.
    + intros e He' Hve. apply Z.pow_le_mono_r; [lia|].
      apply Z.log2_up_le_pow2; lia.
  - intros Hv.
    assert (Hgt : ~ Z.log2_up v <= 14).
    { intros Hle. apply Z.log2_up_le_pow2 in Hle; [|lia]. simpl in Hle. lia. }
    assert (Hle : Z.log2_up v <= 31) by (apply Z.log2_up_le_pow2; lia).
    assert (H15 : (Z.log2_up v <? 15) = false) by lia.
    assert (H32 : (Z.log2_up v <? 32) = true) by lia.
    by rewrite H15, H32.
Qed.

(** C2 as stated fails: for a 10x3 source with mipmapping the snapped
    width is 16 and (snapped width) / (w / h) is 4.8, whose power-of-two
    ceiling is 8; the code truncates 4.8 to 4 first and returns the height
    4. *)
Lemma cache_size_truncates :
  cache_size true 10 3 = (16, 4) /\ claimed_cache_size true 10 3 = (16, 8).
Proof. split; vm_compute; reflexivity. Qed.

(** C2 (amended).  For a positive source extent: without mipmapping the
    capture resolution is the extent itself.  With mipmapping each axis is
    snapped to a power of two between 1 and 16384 (the least one not below
    the dimension, or 16384 above that), and then, with aspect = w / h in
    double precision, if aspect > 1 the height is the snapping of the
    integer part of (snapped width) * (1 / aspect), if aspect < 1 the width
    is the snapping of the integer part of (snapped height) * aspect, and
    otherwise both snapped axes stand.  1920x1080 gives (2048, 2048). *)
Theorem cache_size_policy (w h : Z) :
  0 < w < 2 ^ 32 -> 0 < h < 2 ^ 32 ->
  let aspect := Float64.div (Float64.of_Z w) (Float64.of_Z h) in
  let aspect2 := Float64.div Float64.one aspect in
  let snapped_width := pow2_ceil_clamped w in
  let snapped_height := pow2_ceil_clamped h in
  cache_size false w h = (w, h)
  /\ cache_size true w h =
     (if Float64.ltb Float64.one aspect then
        (snapped_width,
         pow2_ceil_clamped
           (to_uint64 (Float64.trunc (Float64.mul (Float64.of_Z snapped_width) aspect2))))
      else if Float64.ltb aspect Float64.one then
        (pow2_ceil_clamped
           (to_uint64 (Float64.trunc (Float64.mul (Float64.of_Z snapped_height) aspect))),
         snapped_height)
      else (snapped_width, snapped_height))
  /\ (exists e1 e2, 0 <= e1 <= 14 /\ 0 <= e2 <= 14 /\ cache_size true w h = (2 ^ e1, 2 ^ e2))
  /\ (w <= 16384 ->
      w <= snapped_width /\ forall e, 0 <= e -> w <= 2 ^ e -> snapped_width <= 2 ^ e)
  /\ (h <= 16384 ->
      h <= snapped_height /\ forall e, 0 <= e -> h <= 2 ^ e -> snapped_height <= 2 ^ e)
  /\ (16384 < w <= 2 ^ 31 -> snapped_width = 16384)
  /\ (16384 < h <= 2 ^ 31 -> snapped_height = 16384)
  /\ cache_size true 1920 1080 = (2048, 2048).
Proof.
  intros Hw Hh aspect aspect2 snapped_width snapped_height.
  split; [reflexivity|]. split; [reflexivity|]. split.
  - unfold cache_size. fold aspect aspect2 snapped_width snapped_height.
    destruct (pow2_ceil_clamped_spec w) as ((ew & Hew & Hsw) & _).
    destruct (pow2_ceil_clamped_spec h) as ((eh & Heh & Hsh) & _).
    destruct (Float64.ltb Float64.one aspect).
    + match goal with
      | |- context [pow2_ceil_clamped (to_uint64 ?x)] =>
          destruct (pow2_ceil_clamped_spec (to_uint64 x)) as ((e & He & Hs) & _)
      end.
      exists ew, e. repeat split; try lia. by rewrite Hs, <- Hsw.
    + destruct (Float64.ltb aspect Float64.one).
      * match goal with
        | |- context [pow2_ceil_clamped (to_uint64 ?x)] =>
            destruct (pow2_ceil_clamped_spec (to_uint64 x)) as ((e & He & Hs) & _)
        end.
        exists e, eh. repeat split; try lia. by rewrite Hs, <- Hsh.
      * exists ew, eh. repeat split; try lia. by rewrite <- Hsw, <- Hsh.
  - destruct (pow2_ceil_clamped_spec w) as (_ & _ & Hw1 & Hw2).
    destruct (pow2_ceil_clamped_spec h) as (_ & _ & Hh1 & Hh2).
    split; [intros; apply Hw1; lia|]. split; [intros; apply Hh1; lia|].
    split; [exact Hw2|]. split; [exact Hh2|].
    vm_compute. reflexivity.
Qed.

Lemma cache_size_policy_witness :
  0 < 1920 < 2 ^ 32 /\ 0 < 1080 < 2 ^ 32
  /\ exists e1 e2, 0 <= e1 <= 14 /\ 0 <= e2 <= 14
                   /\ cache_size true 1920 1080 = (2 ^ e1, 2 ^ e2).
Proof.
  assert (Hw : 0 < 1920 < 2 ^ 32) by (simpl; lia).
  assert (Hh : 0 < 1080 < 2 ^ 32) by (simpl; lia).
  split; [exact Hw|]. split; [exact Hh|].
  pose proof (cache_size_policy 1920 1080 Hw Hh) as Hc.
  cbv zeta in Hc. destruct Hc as (_ & _ & Hpow & _). exact Hpow.
Defined.

Lemma update_camera_mode_witness :
  2 <> 0
  /\ _camera_orthographic
       (update (obs_data_set_int example_settings ST_KEY_CAMERA_MODE 2) example_instance)
     = false.
Proof.
  assert (H2 : 2 <> 0) by discriminate.
  split; [exact H2|].
  destruct (update_camera_mode example_settings example_instance) as (_ & Hmode & _).
  exact (proj1 (Hmode 2 800 600 H2)).
Defined.

(** ** User values and default values *)

Lemma default_of_eq settings name : default_of settings name = settings !! name ≫= item_default.
Proof. reflexivity. Qed.

Lemma has_user_value_user_of settings name :
  obs_data_has_user_value settings name = bool_decide (is_Some (user_of settings name)).
Proof.
  unfold obs_data_has_user_value, user_of.
  by destruct (settings !! name) as [it|].
Qed.

(** A read takes the user value and, without one, the default value. *)
Lemma read_user_default settings name :
  settings !! name ≫= get_item_data =
  match user_of settings name with
  | Some v => Some v
  | None => default_of settings name
  end.
Proof.
  unfold user_of, default_of, get_item_data.
  by destruct (settings !! name) as [[[u|] d]|].
Qed.

Lemma user_of_set settings name v name' :
  user_of (set_user_value settings name v) name' =
  if decide (name = name') then Some v else user_of settings name'.
Proof. unfold user_of, set_user_value. rewrite lookup_insert. by case_decide. Qed.

Lemma default_of_set settings name v name' :
  default_of (set_user_value settings name v) name' = default_of settings name'.
Proof.
  unfold default_of, set_user_value. rewrite lookup_insert.
  case_decide; [by subst|done].
Qed.

Lemma user_of_unset settings name name' :
  user_of (obs_data_unset_user_value settings name) name' =
  if decide (name = name') then None else user_of settings name'.
Proof.
  unfold user_of, obs_data_unset_user_value.
  destruct (settings !! name) as [it|] eqn:E.
  - rewrite lookup_insert. by case_decide.
  - case_decide; [subst; by rewrite E|done].
Qed.

Lemma default_of_unset settings name name' :
  default_of (obs_data_unset_user_value settings name) name' = default_of settings name'.
Proof.
  unfold default_of, obs_data_unset_user_value.
  destruct (settings !! name) as [it|] eqn:E; [|done].
  rewrite lookup_insert. case_decide; [subst; by rewrite E|done].
Qed.

Lemma user_of_set_default settings name v name' :
  user_of (set_default_value settings name v) name' = user_of settings name'.
Proof.
  unfold user_of, set_default_value. rewrite lookup_insert.
  case_decide; [by subst|done].
Qed.

Lemma default_of_set_default settings name v name' :
  default_of (set_default_value settings name v) name' =
  if decide (name = name') then Some v else default_of settings name'.
Proof. unfold default_of, set_default_value. rewrite lookup_insert. by case_decide. Qed.

Ltac key_in_list :=
  unfold update_keys;
  repeat (first [ apply list_elem_of_here | apply list_elem_of_further ]).

(** Case analysis on a member of a list of keys that is written out. *)
Ltac each_key Hin :=
  repeat (apply elem_of_cons in Hin as [->|Hin]); [..|by apply elem_of_nil in Hin].

(** ** What [update] reads *)

Lemma update_same_reads (settings settings' : obs_data_t) :
  (forall name, name ∈ update_keys ->
                settings !! name ≫= get_item_data = settings' !! name ≫= get_item_data) ->
  forall st, update settings st = update settings' st.
Proof.
  intros Hread.
  assert (Hint : forall name, name ∈ update_keys ->
                              obs_data_get_int settings name = obs_data_get_int settings' name).
  { intros name Hin. unfold obs_data_get_int. by rewrite Hread. }
  assert (Hdouble : forall name, name ∈ update_keys ->
                      obs_data_get_double settings name = obs_data_get_double settings' name).
  { intros name Hin. unfold obs_data_get_double. by rewrite Hread. }
  assert (Hbool : forall name, name ∈ update_keys ->
                      obs_data_get_bool settings name = obs_data_get_bool settings' name).
  { intros name Hin. unfold obs_data_get_bool. by rewrite Hread. }
  assert (Hpercent : forall name, name ∈ update_keys ->
                                  percent settings name = percent settings' name).
  { intros name Hin. unfold percent. by rewrite Hdouble. }
  assert (Hdegrees : forall name, name ∈ update_keys ->
                                  degrees settings name = degrees settings' name).
  { intros name Hin. unfold degrees. by rewrite Hdouble. }
  intros s0. unfold update.
  f_equal;
    repeat first [ rewrite Hint by key_in_list | rewrite Hbool by key_in_list
                 | rewrite Hdouble by key_in_list | rewrite Hpercent by key_in_list
                 | rewrite Hdegrees by key_in_list ];
    reflexivity.
Qed.

(** X5.  [update] depends on the settings only through what its fourteen
    keys read as: two settings objects that read alike under these keys
    give the same instance from the same instance, and the same transform
    parameters from any two instances, whatever else the objects hold. *)
Theorem update_reads_its_keys (settings settings' : obs_data_t)
  (st st' : transform_instance) :
  (forall name, name ∈ update_keys ->
                settings !! name ≫= get_item_data = settings' !! name ≫= get_item_data) ->
  parameters (update settings st) = parameters (update settings' st')
  /\ update settings st = update settings' st.
Proof.
  intros Hread. pose proof (update_same_reads settings settings' Hread) as Hupd.
  split; [|apply Hupd].
  rewrite Hupd. rewrite !parameters_update. reflexivity.
Qed.

Lemma update_reads_its_keys_witness :
  (forall name, name ∈ update_keys ->
                example_settings !! name ≫= get_item_data =
                unrelated_settings !! name ≫= get_item_data)
  /\ update example_settings example_instance = update unrelated_settings example_instance.
Proof.
  assert (Hread : forall name, name ∈ update_keys ->
                    example_settings !! name ≫= get_item_data =
                    unrelated_settings !! name ≫= get_item_data).
  { intros name Hin. unfold update_keys in Hin. each_key Hin; vm_compute; reflexivity. }
  split; [exact Hread|].
  exact (proj2 (update_reads_its_keys example_settings unrelated_settings
                  example_instance example_instance Hread)).
Defined.

Lemma camera_orthographic_update (settings : obs_data_t) (st : transform_instance) :
  _camera_orthographic (update settings st) =
  (obs_data_get_int settings ST_KEY_CAMERA_MODE =? 0).
Proof. reflexivity. Qed.

(** ** Migration: what the settings hold afterwards *)

Lemma default_of_copy TYPE settings OLDNAME NEWNAME name :
  default_of (obs_data_copy TYPE settings OLDNAME NEWNAME) name = default_of settings name.
Proof. destruct TYPE; apply default_of_set. Qed.

Lemma default_of_COPY_UNSET TYPE OLDNAME NEWNAME settings name :
  default_of (COPY_UNSET TYPE OLDNAME NEWNAME settings) name = default_of settings name.
Proof.
  unfold COPY_UNSET. destruct (obs_data_has_user_value settings OLDNAME); [|done].
  by rewrite default_of_unset, default_of_copy.
Qed.

Lemma user_of_COPY_UNSET_old TYPE OLDNAME NEWNAME settings :
  OLDNAME <> NEWNAME ->
  user_of (COPY_UNSET TYPE OLDNAME NEWNAME settings) OLDNAME = None.
Proof.
  intros Hne. unfold COPY_UNSET.
  destruct (obs_data_has_user_value settings OLDNAME) eqn:E.
  - rewrite user_of_unset. by case_decide.
  - rewrite has_user_value_user_of in E. apply bool_decide_eq_false in E.
    destruct (user_of settings OLDNAME); [|done]. exfalso. apply E. eauto.
Qed.

Lemma user_of_COPY_UNSET_other TYPE OLDNAME NEWNAME settings name :
  name <> OLDNAME -> name <> NEWNAME ->
  user_of (COPY_UNSET TYPE OLDNAME NEWNAME settings) name = user_of settings name.
Proof.
  intros Ho Hn. unfold COPY_UNSET.
  destruct (obs_data_has_user_value settings OLDNAME); [|done].
  rewrite user_of_unset. case_decide; [congruence|].
  destruct TYPE; simpl; unfold obs_data_set_int, obs_data_set_double;
    rewrite user_of_set; case_decide; congruence.
Qed.

Lemma user_of_COPY_UNSET_None TYPE OLDNAME NEWNAME settings name :
  name <> NEWNAME -> user_of settings name = None ->
  user_of (COPY_UNSET TYPE OLDNAME NEWNAME settings) name = None.
Proof.
  intros Hn Hnone. destruct (decide (name = OLDNAME)) as [->|Ho].
  - by apply user_of_COPY_UNSET_old.
  - by rewrite user_of_COPY_UNSET_other.
Qed.

(** The copies of a list of migration statements, in order. *)
Abbreviation copy_all l settings :=
  (fold_left (fun s '(TYPE, OLDNAME, NEWNAME) => COPY_UNSET TYPE OLDNAME NEWNAME s) l settings)
  (only parsing).

Lemma default_of_copy_all l settings name :
  default_of (copy_all l settings) name = default_of settings name.
Proof.
  revert settings. induction l as [|[[T o] n] l IH]; intros s; [done|].
  simpl. by rewrite IH, default_of_COPY_UNSET.
Qed.

Lemma user_of_copy_all_None l settings name :
  Forall (fun '(_, _, NEWNAME) => name <> NEWNAME) l ->
  user_of settings name = None ->
  user_of (copy_all l settings) name = None.
Proof.
  intros Hall. revert settings.
  induction Hall as [|[[T o] n] l Hx _ IH]; intros s Hnone; [done|].
  simpl. apply IH. by apply user_of_COPY_UNSET_None.
Qed.

Lemma user_of_copy_all_old l settings name :
  Forall (fun '(_, _, NEWNAME) => name <> NEWNAME) l ->
  Exists (fun '(_, OLDNAME, _) => name = OLDNAME) l ->
  user_of (copy_all l settings) name = None.
Proof.
  intros Hall Hex. revert settings.
  induction Hex as [[[T o] n] l Hx|[[T o] n] l _ IH]; intros s.
  - simpl. inversion Hall as [|? ? Hn Hall']; subst.
    apply user_of_copy_all_None; [done|]. by apply user_of_COPY_UNSET_old.
  - simpl. inversion Hall; subst. by apply IH.
Qed.

Lemma user_of_copy_all_other l settings name :
  Forall (fun '(_, OLDNAME, NEWNAME) => name <> OLDNAME /\ name <> NEWNAME) l ->
  user_of (copy_all l settings) name = user_of settings name.
Proof.
  intros Hall. revert settings.
  induction Hall as [|[[T o] n] l [Ho Hn] _ IH]; intros s; [done|].
  simpl. rewrite IH. by apply user_of_COPY_UNSET_other.
Qed.

(** No key that [update] reads is the second argument of a statement of
    the 0.11 block, and each is the first argument of one. *)
Lemma legacy_names_fresh name :
  name ∈ update_keys ->
  Forall (fun '(_, _, NEWNAME) => name <> NEWNAME) migrate_0_11_copies.
Proof.
  intros Hin. unfold update_keys in Hin.
  each_key Hin; repeat constructor; discriminate.
Qed.

Lemma update_keys_copied name :
  name ∈ update_keys ->
  Exists (fun '(_, OLDNAME, _) => name = OLDNAME) migrate_0_11_copies.
Proof.
  intros Hin. unfold update_keys in Hin.
  each_key Hin; unfold migrate_0_11_copies;
    repeat (first [ apply Exists_cons_hd; reflexivity | apply Exists_cons_tl ]).
Qed.

Lemma default_of_COPY_IGNORE TYPE OLDNAME NEWNAME settings name :
  default_of (COPY_IGNORE TYPE OLDNAME NEWNAME settings) name = default_of settings name.
Proof.
  unfold COPY_IGNORE. destruct (obs_data_has_user_value settings OLDNAME); [|done].
  apply default_of_copy.
Qed.

Lemma user_of_COPY_IGNORE_other TYPE OLDNAME NEWNAME settings name :
  name <> NEWNAME ->
  user_of (COPY_IGNORE TYPE OLDNAME NEWNAME settings) name = user_of settings name.
Proof.
  intros Hn. unfold COPY_IGNORE.
  destruct (obs_data_has_user_value settings OLDNAME); [|done].
  destruct TYPE; simpl; unfold obs_data_set_int, obs_data_set_double;
    rewrite user_of_set; case_decide; congruence.
Qed.

Lemma default_of_migrate_0_8 settings name :
  default_of (migrate_0_8 settings) name = default_of settings name.
Proof. unfold migrate_0_8. by rewrite !default_of_COPY_IGNORE. Qed.

(** The 0.11 block on a key that [update] reads. *)
Lemma migrate_0_11_state settings name :
  name ∈ update_keys ->
  user_of (migrate_0_11 settings) name =
    (if decide (name = ST_KEY_CAMERA_MODE)
     then Some (val_number (num_int (CameraMode_value Orthographic))) else None)
  /\ default_of (migrate_0_11 settings) name = default_of settings name.
Proof.
  intros Hin. unfold migrate_0_11.
  assert (Hmode : user_of (copy_all migrate_0_11_copies settings) ST_KEY_CAMERA_MODE = None).
  { apply user_of_copy_all_old; [apply legacy_names_fresh|apply update_keys_copied];
      key_in_list. }
  assert (Hname : user_of (copy_all migrate_0_11_copies settings) name = None).
  { apply user_of_copy_all_old; [by apply legacy_names_fresh|by apply update_keys_copied]. }
  rewrite <- (default_of_copy_all migrate_0_11_copies settings name).
  generalize dependent (copy_all migrate_0_11_copies settings). intros copied Hmode Hname.
  rewrite has_user_value_user_of, Hmode. simpl.
  unfold SET_IF_UNSET_int. rewrite has_user_value_user_of, Hmode. simpl.
  unfold obs_data_set_int. rewrite user_of_set, default_of_set.
  split; [|done]. case_decide; case_decide; congruence.
Qed.

(** The statement of the 0.11 block for the camera mode comes first, and
    no later statement names the key it writes. *)
Lemma legacy_camera_mode_written_once :
  exists rest,
    migrate_0_11_copies = (type_int, ST_KEY_CAMERA_MODE, legacy_camera_mode) :: rest
    /\ Forall (fun '(_, OLDNAME, NEWNAME) =>
                 legacy_camera_mode <> OLDNAME /\ legacy_camera_mode <> NEWNAME) rest.
Proof.
  eexists. split; [reflexivity|]. repeat constructor; discriminate.
Qed.

Lemma user_of_migrate_0_11_legacy_camera settings :
  user_of (migrate_0_11 settings) legacy_camera_mode =
  if obs_data_has_user_value settings ST_KEY_CAMERA_MODE
  then Some (val_number (num_int (obs_data_get_int settings ST_KEY_CAMERA_MODE)))
  else user_of settings legacy_camera_mode.
Proof.
  unfold migrate_0_11.
  destruct legacy_camera_mode_written_once as (rest & -> & Hrest).
  assert (Hcopied : user_of (copy_all ((type_int, ST_KEY_CAMERA_MODE, legacy_camera_mode) :: rest)
                               settings) legacy_camera_mode =
                    if obs_data_has_user_value settings ST_KEY_CAMERA_MODE
                    then Some (val_number (num_int (obs_data_get_int settings ST_KEY_CAMERA_MODE)))
                    else user_of settings legacy_camera_mode).
  { simpl. rewrite user_of_copy_all_other by exact Hrest.
    unfold COPY_UNSET. destruct (obs_data_has_user_value settings ST_KEY_CAMERA_MODE); [|done].
    rewrite user_of_unset. case_decide; [discriminate|].
    simpl. unfold obs_data_set_int. rewrite user_of_set. by case_decide. }
  rewrite <- Hcopied.
  generalize (copy_all ((type_int, ST_KEY_CAMERA_MODE, legacy_camera_mode) :: rest) settings).
  intros copied.
  destruct (negb (obs_data_has_user_value copied ST_KEY_CAMERA_MODE)); [|done].
  unfold SET_IF_UNSET_int.
  destruct (negb (obs_data_has_user_value copied ST_KEY_CAMERA_MODE)); [|done].
  unfold obs_data_set_int. rewrite user_of_set. by case_decide.
Qed.

Section MigrateProperties.
Variable STREAMFX_MASK_UPDATE : Z.
Variable STREAMFX_MAKE_VERSION : Z -> Z -> Z -> Z -> Z.

Abbreviation migrate' := (migrate STREAMFX_MASK_UPDATE STREAMFX_MAKE_VERSION) (only parsing).

(** X1.  When 0.8.0.0 is not above 0.11.0.0 as the version macro numbers
    them, a snapshot saved at 0.11.0.0 or later (by its major, minor and
    patch components) goes through the migration unchanged. *)
Theorem migrate_current_version (settings : obs_data_t) (version : Z) :
  STREAMFX_MAKE_VERSION 0 8 0 0 <= STREAMFX_MAKE_VERSION 0 11 0 0 ->
  STREAMFX_MAKE_VERSION 0 11 0 0 <= Z.land version STREAMFX_MASK_UPDATE ->
  migrate STREAMFX_MASK_UPDATE STREAMFX_MAKE_VERSION settings version = settings.
Proof.
  intros Hmono Hge. unfold migrate.
  destruct (Z.ltb_spec (Z.land version STREAMFX_MASK_UPDATE) (STREAMFX_MAKE_VERSION 0 8 0 0));
    [lia|].
  destruct (Z.ltb_spec (Z.land version STREAMFX_MASK_UPDATE) (STREAMFX_MAKE_VERSION 0 11 0 0));
    [lia|done].
Qed.

(** Below 0.11.0.0 the migration is the 0.11 block on settings with the
    defaults of the snapshot and, apart from the two rotation keys of the
    0.8 block, its user values. *)
Lemma migrate_below_0_11 (settings : obs_data_t) (version : Z) :
  Z.land version STREAMFX_MASK_UPDATE < STREAMFX_MAKE_VERSION 0 11 0 0 ->
  exists settings0,
    migrate' settings version = migrate_0_11 settings0
    /\ (forall name, default_of settings0 name = default_of settings name)
    /\ (forall name, name <> ST_KEY_ROTATION_X -> name <> ST_KEY_ROTATION_Y ->
                     user_of settings0 name = user_of settings name).
Proof.
  intros Hlt. unfold migrate. apply Z.ltb_lt in Hlt. rewrite Hlt.
  destruct (_ <? STREAMFX_MAKE_VERSION 0 8 0 0).
  - exists (migrate_0_8 settings). split; [done|]. split.
    + intros name. apply default_of_migrate_0_8.
    + intros name Hx Hy. unfold migrate_0_8.
      by rewrite !user_of_COPY_IGNORE_other.
  - by exists settings.
Qed.

Lemma migrate_state (settings : obs_data_t) (version : Z) (name : string) :
  Z.land version STREAMFX_MASK_UPDATE < STREAMFX_MAKE_VERSION 0 11 0 0 ->
  name ∈ update_keys ->
  user_of (migrate' settings version) name =
    (if decide (name = ST_KEY_CAMERA_MODE) then Some (val_number (num_int 0)) else None)
  /\ default_of (migrate' settings version) name = default_of settings name.
Proof.
  intros Hlt Hin.
  destruct (migrate_below_0_11 settings version Hlt) as (s0 & Hm & Hdef & _).
  rewrite Hm. destruct (migrate_0_11_state s0 name Hin) as [Hu Hd].
  split; [exact Hu|]. by rewrite Hd.
Qed.

(** X2.  Below 0.11.0.0 the migration leaves no user value under any key
    that [update] reads except the camera mode, which it stores as 0
    (orthographic) whatever it was: each other key then reads as its
    default value, if it has one. *)
Theorem migrate_drops_user_values (settings : obs_data_t) (version : Z) (name : string) :
  Z.land version STREAMFX_MASK_UPDATE < STREAMFX_MAKE_VERSION 0 11 0 0 ->
  name ∈ update_keys ->
  let migrated := migrate' settings version in
  obs_data_has_user_value migrated name = bool_decide (name = ST_KEY_CAMERA_MODE)
  /\ migrated !! name ≫= get_item_data =
     (if decide (name = ST_KEY_CAMERA_MODE)
      then Some (val_number (num_int 0))
      else settings !! name ≫= item_default)
  /\ obs_data_get_int migrated ST_KEY_CAMERA_MODE = 0.
Proof.
  intros Hlt Hin migrated. subst migrated.
  destruct (migrate_state settings version name Hlt Hin) as [Hu Hd].
  assert (Hmode : ST_KEY_CAMERA_MODE ∈ update_keys) by key_in_list.
  destruct (migrate_state settings version ST_KEY_CAMERA_MODE Hlt Hmode) as [Hum _].
  rewrite decide_True in Hum by done.
  split; [|split].
  - rewrite has_user_value_user_of, Hu.
    destruct (decide (name = ST_KEY_CAMERA_MODE)) as [Heq|Hne]; simpl; symmetry;
      [by apply bool_decide_eq_true|by apply bool_decide_eq_false].
  - rewrite read_user_default, Hu, Hd, default_of_eq. by case_decide.
  - unfold obs_data_get_int. by rewrite read_user_default, Hum.
Qed.

Lemma update_migrate_defaults (s1 s2 : obs_data_t) (v1 v2 : Z) (st : transform_instance) :
  Z.land v1 STREAMFX_MASK_UPDATE < STREAMFX_MAKE_VERSION 0 11 0 0 ->
  Z.land v2 STREAMFX_MASK_UPDATE < STREAMFX_MAKE_VERSION 0 11 0 0 ->
  (forall name, name ∈ update_keys ->
                s1 !! name ≫= item_default = s2 !! name ≫= item_default) ->
  update (migrate' s1 v1) st = update (migrate' s2 v2) st.
Proof.
  intros H1 H2 Hd. apply update_same_reads. intros name Hin.
  destruct (migrate_state s1 v1 name H1 Hin) as [Hu1 Hd1].
  destruct (migrate_state s2 v2 name H2 Hin) as [Hu2 Hd2].
  rewrite !read_user_default, Hu1, Hu2, Hd1, Hd2.
  destruct (decide (name = ST_KEY_CAMERA_MODE)); [reflexivity|].
  rewrite !default_of_eq. by apply Hd.
Qed.

(** X3.  After a migration from below 0.11.0.0, [update] gives the
    orthographic camera and an instance that depends on the default values
    of the snapshot alone: two snapshots with the same defaults under the
    keys of [update] give the same instance, whatever their user values
    are; in particular a second migration does not change what [update]
    gives. *)
Theorem update_after_migrate (settings settings' : obs_data_t) (version version' : Z)
  (st : transform_instance) :
  Z.land version STREAMFX_MASK_UPDATE < STREAMFX_MAKE_VERSION 0 11 0 0 ->
  Z.land version' STREAMFX_MASK_UPDATE < STREAMFX_MAKE_VERSION 0 11 0 0 ->
  (forall name, name ∈ update_keys ->
                settings !! name ≫= item_default = settings' !! name ≫= item_default) ->
  update (migrate' settings version) st = update (migrate' settings' version') st
  /\ _camera_orthographic (update (migrate' settings version) st) = true
  /\ update (migrate' (migrate' settings version) version') st =
     update (migrate' settings version) st.
Proof.
  intros Hlt Hlt' Hdef.
  split; [by apply update_migrate_defaults|]. split.
  - rewrite camera_orthographic_update.
    assert (Hmode : ST_KEY_CAMERA_MODE ∈ update_keys) by key_in_list.
    destruct (migrate_state settings version ST_KEY_CAMERA_MODE Hlt Hmode) as [Hum _].
    rewrite decide_True in Hum by done.
    unfold obs_data_get_int. by rewrite read_user_default, Hum.
  - apply update_migrate_defaults; [exact Hlt'|exact Hlt|]. intros name Hin.
    destruct (migrate_state settings version name Hlt Hin) as [_ Hd].
    rewrite <- !default_of_eq. exact Hd.
Qed.
Lemma user_of_migrate_legacy_camera (settings : obs_data_t) (version : Z) :
  Z.land version STREAMFX_MASK_UPDATE < STREAMFX_MAKE_VERSION 0 11 0 0 ->
  user_of (migrate' settings version) legacy_camera_mode =
  if obs_data_has_user_value settings ST_KEY_CAMERA_MODE
  then Some (val_number (num_int (obs_data_get_int settings ST_KEY_CAMERA_MODE)))
  else user_of settings legacy_camera_mode.
Proof.
  intros Hlt.
  destruct (migrate_below_0_11 settings version Hlt) as (s0 & Hm & Hdef & Huser).
  rewrite Hm, user_of_migrate_0_11_legacy_camera.
  assert (Hmode : user_of s0 ST_KEY_CAMERA_MODE = user_of settings ST_KEY_CAMERA_MODE)
    by by apply Huser.
  rewrite !has_user_value_user_of, Hmode.
  unfold obs_data_get_int. rewrite !read_user_default, Hmode, Hdef.
  rewrite Huser by done. reflexivity.
Qed.

(** X4.  Below 0.11.0.0 the migration saves a camera mode that the user
    has set under the name "Filter.Transform.Camera" and stores 0 as the
    camera mode.  It is not idempotent: a second migration finds that 0
    and saves it under the same name, so the saved camera mode reads 0
    whatever it was, and the settings differ from the once-migrated ones
    whenever the mode that was set is not 0. *)
Theorem migrate_twice_camera_mode (settings : obs_data_t) (version version' : Z) :
  Z.land version STREAMFX_MASK_UPDATE < STREAMFX_MAKE_VERSION 0 11 0 0 ->
  Z.land version' STREAMFX_MASK_UPDATE < STREAMFX_MAKE_VERSION 0 11 0 0 ->
  let once := migrate' settings version in
  let twice := migrate' once version' in
  (obs_data_has_user_value settings ST_KEY_CAMERA_MODE = true ->
   obs_data_has_user_value once legacy_camera_mode = true
   /\ obs_data_get_int once legacy_camera_mode = obs_data_get_int settings ST_KEY_CAMERA_MODE)
  /\ obs_data_get_int once ST_KEY_CAMERA_MODE = 0
  /\ obs_data_has_user_value twice legacy_camera_mode = true
  /\ obs_data_get_int twice legacy_camera_mode = 0
  /\ (obs_data_has_user_value settings ST_KEY_CAMERA_MODE = true ->
      obs_data_get_int settings ST_KEY_CAMERA_MODE <> 0 -> twice <> once).
Proof.
  intros Hlt Hlt' once twice.
  assert (Hmode : ST_KEY_CAMERA_MODE ∈ update_keys) by key_in_list.
  destruct (migrate_state settings version ST_KEY_CAMERA_MODE Hlt Hmode) as [Hum _].
  rewrite decide_True in Hum by done. fold once in Hum.
  assert (Hzero : obs_data_get_int once ST_KEY_CAMERA_MODE = 0).
  { unfold obs_data_get_int. by rewrite read_user_default, Hum. }
  assert (Hset : obs_data_has_user_value once ST_KEY_CAMERA_MODE = true).
  { rewrite has_user_value_user_of, Hum. apply bool_decide_eq_true. eauto. }
  assert (Honce : obs_data_has_user_value settings ST_KEY_CAMERA_MODE = true ->
                  user_of once legacy_camera_mode =
                  Some (val_number (num_int (obs_data_get_int settings ST_KEY_CAMERA_MODE)))).
  { intros Hu. subst once. by rewrite user_of_migrate_legacy_camera, Hu. }
  assert (Htwice : user_of twice legacy_camera_mode = Some (val_number (num_int 0))).
  { subst twice. by rewrite user_of_migrate_legacy_camera, Hset, Hzero. }
  split; [|split; [exact Hzero|split; [|split]]].
  - intros Hu. specialize (Honce Hu). split.
    + rewrite has_user_value_user_of, Honce. apply bool_decide_eq_true. eauto.
    + unfold obs_data_get_int at 1. by rewrite read_user_default, Honce.
  - rewrite has_user_value_user_of, Htwice. apply bool_decide_eq_true. eauto.
  - unfold obs_data_get_int. by rewrite read_user_default, Htwice.
  - intros Hu Hne Heq. specialize (Honce Hu). rewrite Heq, Honce in Htwice.
    congruence.
Qed.
End MigrateProperties.

Lemma migrate_current_version_witness :
  version_make 0 8 0 0 <= version_make 0 11 0 0
  /\ version_make 0 11 0 0 <= Z.land (version_make 0 11 0 0) version_mask_update
  /\ migrate version_mask_update version_make current_settings (version_make 0 11 0 0)
     = current_settings.
Proof.
  assert (H8 : version_make 0 8 0 0 <= version_make 0 11 0 0) by (vm_compute; discriminate).
  assert (H11 : version_make 0 11 0 0 <= Z.land (version_make 0 11 0 0) version_mask_update)
    by (vm_compute; discriminate).
  split; [exact H8|]. split; [exact H11|].
  exact (migrate_current_version version_mask_update version_make current_settings
           (version_make 0 11 0 0) H8 H11).
Defined.

Lemma migrate_drops_user_values_witness :
  Z.land 0 version_mask_update < version_make 0 11 0 0
  /\ ST_KEY_POSITION_X ∈ update_keys
  /\ obs_data_has_user_value current_settings ST_KEY_POSITION_X = true
  /\ obs_data_has_user_value (migrate version_mask_update version_make current_settings 0)
       ST_KEY_POSITION_X = false.
Proof.
  assert (Hlt : Z.land 0 version_mask_update < version_make 0 11 0 0) by reflexivity.
  assert (Hin : ST_KEY_POSITION_X ∈ update_keys) by key_in_list.
  split; [exact Hlt|]. split; [exact Hin|]. split; [vm_compute; reflexivity|].
  exact (proj1 (migrate_drops_user_values version_mask_update version_make current_settings
                  0 ST_KEY_POSITION_X Hlt Hin)).
Defined.

Lemma update_after_migrate_witness :
  Z.land 0 version_mask_update < version_make 0 11 0 0
  /\ (forall name, name ∈ update_keys ->
                   current_settings !! name ≫= item_default =
                   legacy_settings !! name ≫= item_default)
  /\ update (migrate version_mask_update version_make current_settings 0) example_instance =
     update (migrate version_mask_update version_make legacy_settings 0) example_instance.
Proof.
  assert (Hlt : Z.land 0 version_mask_update < version_make 0 11 0 0) by reflexivity.
  assert (Hdef : forall name, name ∈ update_keys ->
                   current_settings !! name ≫= item_default =
                   legacy_settings !! name ≫= item_default).
  { intros name Hin. unfold update_keys in Hin. each_key Hin; vm_compute; reflexivity. }
  split; [exact Hlt|]. split; [exact Hdef|].
  exact (proj1 (update_after_migrate version_mask_update version_make current_settings
                  legacy_settings 0 0 example_instance Hlt Hlt Hdef)).
Defined.

Lemma migrate_twice_camera_mode_witness :
  Z.land 0 version_mask_update < version_make 0 11 0 0
  /\ obs_data_has_user_value perspective_settings ST_KEY_CAMERA_MODE = true
  /\ obs_data_get_int perspective_settings ST_KEY_CAMERA_MODE <> 0
  /\ obs_data_get_int (migrate version_mask_update version_make perspective_settings 0)
       legacy_camera_mode = obs_data_get_int perspective_settings ST_KEY_CAMERA_MODE
  /\ obs_data_get_int
       (migrate version_mask_update version_make
          (migrate version_mask_update version_make perspective_settings 0) 0)
       legacy_camera_mode = 0.
Proof.
  assert (Hlt : Z.land 0 version_mask_update < version_make 0 11 0 0) by reflexivity.
  assert (Hu : obs_data_has_user_value perspective_settings ST_KEY_CAMERA_MODE = true)
    by (vm_compute; reflexivity).
  assert (Hne : obs_data_get_int perspective_settings ST_KEY_CAMERA_MODE <> 0)
    by (vm_compute; discriminate).
  split; [exact Hlt|]. split; [exact Hu|]. split; [exact Hne|].
  pose proof (migrate_twice_camera_mode version_mask_update version_make
                perspective_settings 0 0 Hlt Hlt) as Hm.
  cbv zeta in Hm. destruct Hm as (Hsaved & _ & _ & Hlost & _).
  split; [exact (proj2 (Hsaved Hu))|exact Hlost].
Defined.

(** ** Defaults *)

Lemma user_of_get_defaults2 settings name :
  user_of (get_defaults2 settings) name = user_of settings name.
Proof.
  unfold get_defaults2, obs_data_set_default_int, obs_data_set_default_double,
    obs_data_set_default_bool.
  by rewrite !user_of_set_default.
Qed.

Lemma default_of_get_defaults2 settings :
  Forall (fun '(name, v) => default_of (get_defaults2 settings) name = Some v) default_table.
Proof.
  unfold get_defaults2, obs_data_set_default_int, obs_data_set_default_double,
    obs_data_set_default_bool, default_table.
  repeat constructor; rewrite !default_of_set_default;
    repeat (case_decide; [try discriminate; try reflexivity|]); try done.
Qed.

Lemma default_of_get_defaults2_other settings name :
  name ∉ update_keys ->
  default_of (get_defaults2 settings) name = default_of settings name.
Proof.
  intros Hnot.
  unfold get_defaults2, obs_data_set_default_int, obs_data_set_default_double,
    obs_data_set_default_bool.
  rewrite !default_of_set_default.
  repeat (case_decide; [exfalso; apply Hnot; subst name; key_in_list|]).
  reflexivity.
Qed.

Lemma get_defaults2_read settings name v :
  (name, v) ∈ default_table ->
  get_defaults2 settings !! name ≫= get_item_data =
  match user_of settings name with
  | Some u => Some u
  | None => Some v
  end.
Proof.
  intros Hin. rewrite read_user_default, user_of_get_defaults2.
  pose proof (default_of_get_defaults2 settings) as Hall.
  rewrite Forall_forall in Hall. specialize (Hall _ Hin). simpl in Hall. by rewrite Hall.
Qed.

Ltac default_in_table :=
  unfold default_table;
  repeat (first [ apply list_elem_of_here | apply list_elem_of_further ]).

(** X6.  [get_defaults2] never touches a user value; it gives a default
    to every key that [update] reads and to no other key.  On settings
    without user values under these keys, [update] after [get_defaults2]
    gives the orthographic camera with a field of view of 90, no
    translation, no rotation in the order ZXY, the scale (1, 1, 1), no
    shear and no mipmapping. *)
Theorem update_get_defaults2 (settings : obs_data_t) (st : transform_instance) :
  (forall name, get_defaults2 settings !! name ≫= item_user = settings !! name ≫= item_user)
  /\ (forall name, name ∈ update_keys ->
                   is_Some (get_defaults2 settings !! name ≫= item_default))
  /\ (forall name, name ∉ update_keys ->
                   get_defaults2 settings !! name ≫= item_default =
                   settings !! name ≫= item_default)
  /\ ((forall name, name ∈ update_keys -> settings !! name ≫= item_user = None) ->
      parameters (update (get_defaults2 settings) st) =
      {| camera_orthographic := true;
         field_of_view := Float32.of_Z 90;
         param_position := vec3_set Float32.zero Float32.zero Float32.zero;
         param_rotation := vec3_set Float32.zero Float32.zero Float32.zero;
         rotation_order := RotationOrder_value ZXY;
         param_scale := vec3_set Float32.one Float32.one Float32.one;
         param_shear := vec3_set Float32.zero Float32.zero Float32.zero;
         mipmap_enabled := false |}).
Proof.
  split; [apply user_of_get_defaults2|]. split; [|split].
  - intros name Hin.
    pose proof (default_of_get_defaults2 settings) as Hall. rewrite Forall_forall in Hall.
    unfold update_keys in Hin.
    each_key Hin;
      match goal with
      | |- is_Some (_ !! ?k ≫= _) =>
          assert (Hk : exists v, (k, v) ∈ default_table) by (eexists; default_in_table)
      end;
      destruct Hk as [v Hv]; specialize (Hall _ Hv); simpl in Hall;
      unfold default_of in Hall; rewrite Hall; eauto.
  - apply default_of_get_defaults2_other.
  - intros Hnone.
    assert (Hread : forall name v, (name, v) ∈ default_table -> name ∈ update_keys ->
                                   get_defaults2 settings !! name ≫= get_item_data = Some v).
    { intros name v Hv Hin. rewrite (get_defaults2_read settings name v Hv).
      unfold user_of. by rewrite Hnone. }
    rewrite parameters_update. unfold percent, degrees, obs_data_get_int,
      obs_data_get_double, obs_data_get_bool.
    rewrite (Hread ST_KEY_CAMERA_MODE _ ltac:(default_in_table) ltac:(key_in_list)).
    rewrite (Hread ST_KEY_CAMERA_FIELDOFVIEW _ ltac:(default_in_table) ltac:(key_in_list)).
    rewrite (Hread ST_KEY_POSITION_X _ ltac:(default_in_table) ltac:(key_in_list)).
    rewrite (Hread ST_KEY_POSITION_Y _ ltac:(default_in_table) ltac:(key_in_list)).
    rewrite (Hread ST_KEY_POSITION_Z _ ltac:(default_in_table) ltac:(key_in_list)).
    rewrite (Hread ST_KEY_ROTATION_X _ ltac:(default_in_table) ltac:(key_in_list)).
    rewrite (Hread ST_KEY_ROTATION_Y _ ltac:(default_in_table) ltac:(key_in_list)).
    rewrite (Hread ST_KEY_ROTATION_Z _ ltac:(default_in_table) ltac:(key_in_list)).
    rewrite (Hread ST_KEY_ROTATION_ORDER _ ltac:(default_in_table) ltac:(key_in_list)).
    rewrite (Hread ST_KEY_SCALE_X _ ltac:(default_in_table) ltac:(key_in_list)).
    rewrite (Hread ST_KEY_SCALE_Y _ ltac:(default_in_table) ltac:(key_in_list)).
    rewrite (Hread ST_KEY_SHEAR_X _ ltac:(default_in_table) ltac:(key_in_list)).
    rewrite (Hread ST_KEY_SHEAR_Y _ ltac:(default_in_table) ltac:(key_in_list)).
    rewrite (Hread ST_KEY_MIPMAPPING _ ltac:(default_in_table) ltac:(key_in_list)).
    vm_compute. reflexivity.
Qed.

(** ** Property visibility *)

Lemma lookup_set_visible name b pr name' :
  obs_property_set_visible name b pr !! name' =
  if decide (name = name') then (fun _ => b) <$> pr !! name' else pr !! name'.
Proof.
  unfold obs_property_set_visible. rewrite lookup_alter.
  case_decide; [by subst|done].
Qed.

(** X7.  The camera-mode callback always returns true, adds and removes
    no property, shows the field of view and the Z position exactly when
    the mode reads as 1 (perspective), shows the position, rotation, scale
    and shear groups and the rotation order, and leaves every other
    property as it is.  For a mode other than 0 and 1, [update] takes the
    perspective path while the callback hides the field of view. *)
Theorem modified_camera_mode_visibility (pr : gmap string bool) (d : obs_data_t) :
  let pr' := fst (modified_camera_mode pr d) in
  let perspective := obs_data_get_int d ST_KEY_CAMERA_MODE =? 1 in
  snd (modified_camera_mode pr d) = true
  /\ (forall name, is_Some (pr' !! name) <-> is_Some (pr !! name))
  /\ (forall name, name ∈ [ST_KEY_CAMERA_FIELDOFVIEW; ST_KEY_POSITION_Z] ->
                   is_Some (pr !! name) -> pr' !! name = Some perspective)
  /\ (forall name,
        name ∈ [ST_I18N_POSITION; ST_I18N_ROTATION; ST_I18N_SCALE; ST_I18N_SHEAR;
                ST_KEY_ROTATION_ORDER] ->
        is_Some (pr !! name) -> pr' !! name = Some true)
  /\ (forall name, name ∉ camera_mode_names -> pr' !! name = pr !! name)
  /\ (forall st, obs_data_get_int d ST_KEY_CAMERA_MODE <> 0 ->
                 obs_data_get_int d ST_KEY_CAMERA_MODE <> 1 ->
                 _camera_orthographic (update d st) = false /\ perspective = false).
Proof.
  intros pr' perspective.
  assert (Hlookup : forall name,
             pr' !! name =
             obs_property_set_visible ST_KEY_ROTATION_ORDER true
               (obs_property_set_visible ST_I18N_SHEAR true
                  (obs_property_set_visible ST_I18N_SCALE true
                     (obs_property_set_visible ST_I18N_ROTATION true
                        (obs_property_set_visible ST_KEY_POSITION_Z perspective
                           (obs_property_set_visible ST_I18N_POSITION true
                              (obs_property_set_visible ST_KEY_CAMERA_FIELDOFVIEW perspective
                                 pr)))))) !! name).
  { intros name. subst pr' perspective. unfold modified_camera_mode. simpl fst.
    rewrite !andb_true_r. reflexivity. }
  split; [reflexivity|]. split; [|split; [|split; [|split]]].
  - intros name. rewrite Hlookup, !lookup_set_visible.
    repeat case_decide; by rewrite ?fmap_is_Some.
  - intros name Hin [v Hv].
    each_key Hin;
      rewrite Hlookup, !lookup_set_visible;
      repeat (case_decide; try discriminate); try congruence; by rewrite Hv.
  - intros name Hin [v Hv].
    each_key Hin;
      rewrite Hlookup, !lookup_set_visible;
      repeat (case_decide; try discriminate); try congruence; by rewrite Hv.
  - intros name Hnot. rewrite Hlookup, !lookup_set_visible.
    repeat (case_decide;
            [exfalso; apply Hnot; subst name; unfold camera_mode_names;
             repeat (first [ apply list_elem_of_here | apply list_elem_of_further ])|]).
    reflexivity.
  - intros st H0 H1. subst perspective. split.
    + rewrite camera_orthographic_update. by apply Z.eqb_neq.
    + by apply Z.eqb_neq.
Qed.

(** ** The property panel *)

Lemma double_0_01_division :
  double_0_01 = Float64.div (Float64.of_Z 1) (Float64.of_Z 100).
Proof. vm_compute. reflexivity. Qed.

Lemma setting_properties_get_properties2 b manual advanced :
  flat_map setting_properties (get_properties2 b manual advanced) =
  flat_map setting_properties (get_properties2 false "" "").
Proof. by destruct b. Qed.

Lemma RotationOrder_case_items (n : Z) :
  n ∈ map RotationOrder_value [XYZ; XZY; YXZ; YZX; ZXY; ZYX] <->
  is_Some (RotationOrder_case n).
Proof.
  split.
  - intros Hin. simpl in Hin. each_key Hin; by eexists.
  - intros [o Ho]. unfold RotationOrder_case in Ho.
    apply find_some in Ho as [_ Heq]. apply Z.eqb_eq in Heq. subst n.
    destruct o; simpl;
      repeat (first [ apply list_elem_of_here | apply list_elem_of_further ]).
Qed.

(** The property of a list of properties that has a given name and admits
    a given value. *)
Ltac find_property :=
  match goal with
  | |- exists p, p ∈ ?L /\ _ =>
      let rec go l :=
        lazymatch l with
        | ?x :: ?l' =>
            first [ exists x; split;
                    [ repeat (first [ apply list_elem_of_here | apply list_elem_of_further ])
                    | split; [reflexivity|vm_compute; reflexivity] ]
                  | go l' ]
        end in
      go L
  end.

(** X18.  The panel of [get_properties2] fits the rest of the filter,
    whatever the names from the strings header are and with or without the
    frontend: it has one property for each key that [update] reads and for
    no other setting; each default of [get_defaults2] is a value of the
    kind and within the range or the list of its property; the rotation
    orders offered are exactly the case labels of the mesh builder, the
    camera modes offered are 0 and 1; every name that the camera-mode
    callback looks up is the name of a property of the panel; and the
    callback is set on the camera mode only. *)
Theorem get_properties2_consistent (ENABLE_FRONTEND : bool)
  (S_MANUAL_OPEN S_ADVANCED : string) :
  let panel := get_properties2 ENABLE_FRONTEND S_MANUAL_OPEN S_ADVANCED in
  let settings := flat_map setting_properties panel in
  map property_name settings ≡ₚ update_keys
  /\ Forall (fun '(name, v) =>
               exists p, p ∈ settings /\ property_name p = name
                         /\ property_admits p v = true) default_table
  /\ (forall items callback,
        property_list_int ST_KEY_ROTATION_ORDER items callback ∈ settings ->
        forall n, n ∈ items <-> is_Some (RotationOrder_case n))
  /\ (forall items callback,
        property_list_int ST_KEY_CAMERA_MODE items callback ∈ settings -> items = [0; 1])
  /\ Forall (fun name => name ∈ flat_map property_names panel) camera_mode_names
  /\ (forall name items,
        property_list_int name items true ∈ settings -> name = ST_KEY_CAMERA_MODE).
Proof.
  intros panel settings.
  assert (Hsettings : settings = flat_map setting_properties (get_properties2 false "" ""))
    by apply setting_properties_get_properties2.
  assert (Hlists : forall name items callback,
             property_list_int name items callback ∈ settings ->
             (name = ST_KEY_CAMERA_MODE /\ items = [0; 1] /\ callback = true)
             \/ (name = ST_KEY_ROTATION_ORDER
                 /\ items = map RotationOrder_value [XYZ; XZY; YXZ; YZX; ZXY; ZYX]
                 /\ callback = false)).
  { intros name items callback Hin. rewrite Hsettings in Hin.
    cbv [get_properties2 flat_map setting_properties map app] in Hin.
    repeat (apply elem_of_cons in Hin as [Heq|Hin];
            [first [ discriminate Heq
                   | injection Heq as -> -> ->;
                     first [left; by repeat split|right; by repeat split] ]|]).
    by apply elem_of_nil in Hin. }
  split; [|split; [|split; [|split; [|split]]]].
  - rewrite Hsettings. apply (bool_decide_unpack _). vm_compute. reflexivity.
  - rewrite Hsettings. unfold default_table. cbv zeta.
    cbv [get_properties2 flat_map setting_properties map app].
    repeat (constructor; [cbv beta iota; find_property|]).
    constructor.
  - intros items callback Hin n.
    destruct (Hlists _ _ _ Hin) as [(Hname & _)|(_ & -> & _)]; [discriminate|].
    apply RotationOrder_case_items.
  - intros items callback Hin.
    destruct (Hlists _ _ _ Hin) as [(_ & -> & _)|(Hname & _)]; [done|discriminate].
  - subst panel. unfold camera_mode_names.
    destruct ENABLE_FRONTEND;
      cbv [get_properties2 flat_map property_names property_name map app];
      repeat (apply Forall_cons; split;
              [repeat (first [ apply list_elem_of_here | apply list_elem_of_further ])|]);
      apply Forall_nil_2.
  - intros name items Hin.
    destruct (Hlists _ _ _ Hin) as [(-> & _)|(_ & _ & Hcb)]; [done|discriminate].
Qed.

(** ** The tick *)

Section TickProperties.
Context `{Matrix4Ops}.

Lemma parameters_update_mesh (width height : Z) (st : transform_instance) :
  parameters (update_mesh width height st) = parameters st.
Proof. reflexivity. Qed.

Lemma parameters_check_size (width height : Z) (st : transform_instance) :
  parameters (check_size width height st) = parameters st.
Proof. unfold check_size. by repeat case_match. Qed.

Lemma vertex_buffer_check_size (width height : Z) (st : transform_instance) :
  _vertex_buffer (check_size width height st) = _vertex_buffer st.
Proof. unfold check_size. by repeat case_match. Qed.

Lemma source_size_check_size (width height : Z) (st : transform_instance) :
  _source_size (check_size width height st) = _source_size st.
Proof. unfold check_size. by repeat case_match. Qed.

Lemma parameters_video_tick (target : option (Z * Z)) (st : transform_instance) :
  parameters (video_tick target st) = parameters st.
Proof.
  rewrite video_tick_unfold.
  assert (Hclear : forall s0, parameters (clear_rendered s0) = parameters s0)
    by reflexivity.
  rewrite Hclear.
  destruct (_update_mesh (check_size _ _ st));
    by rewrite ?parameters_update_mesh, parameters_check_size.
Qed.

Lemma length_vertex_buffer_video_tick (target : option (Z * Z)) (st : transform_instance) :
  length (_vertex_buffer (video_tick target st)) = length (_vertex_buffer st).
Proof.
  rewrite video_tick_unfold.
  assert (Hclear : forall s0, _vertex_buffer (clear_rendered s0) = _vertex_buffer s0)
    by reflexivity.
  rewrite Hclear.
  destruct (_update_mesh (check_size _ _ st));
    by rewrite ?update_mesh_length, vertex_buffer_check_size.
Qed.

(** X8.  Whatever the instance and the target are, a tick leaves the mesh
    clean, the stored source size equal to the reported one, the three
    rendered flags cleared, the transform parameters and the number of
    vertices as they were; a second tick on the same target changes
    nothing. *)
Theorem video_tick_settles (target : option (Z * Z)) (st : transform_instance) :
  let width := match target with Some (w, _) => w | None => 0 end in
  let height := match target with Some (_, h) => h | None => 0 end in
  let st' := video_tick target st in
  _update_mesh st' = false
  /\ _source_size st' = (width, height)
  /\ _cache_rendered st' = false /\ _mipmap_rendered st' = false
  /\ _source_rendered st' = false
  /\ parameters st' = parameters st
  /\ length (_vertex_buffer st') = length (_vertex_buffer st)
  /\ video_tick target st' = st'.
Proof.
  intros width height st'.
  assert (Hflag : _update_mesh st' = false).
  { subst st'. rewrite video_tick_unfold. fold width height.
    destruct (_update_mesh (check_size width height st)) eqn:E; [reflexivity|].
    unfold clear_rendered. simpl. exact E. }
  assert (Hsize : _source_size st' = (width, height)).
  { subst st'. rewrite video_tick_unfold. fold width height.
    destruct (_update_mesh (check_size width height st)) eqn:E; [reflexivity|].
    unfold clear_rendered. simpl. rewrite source_size_check_size.
    rewrite check_size_update_mesh in E.
    destruct (Z.eqb_spec width (fst (_source_size st))) as [Hw|]; [|discriminate].
    destruct (Z.eqb_spec height (snd (_source_size st))) as [Hh|]; [|discriminate].
    rewrite Hw, Hh. by destruct (_source_size st). }
  split; [exact Hflag|]. split; [exact Hsize|].
  split; [reflexivity|]. split; [reflexivity|]. split; [reflexivity|].
  split; [apply parameters_video_tick|].
  split; [apply length_vertex_buffer_video_tick|].
  assert (Hc : _cache_rendered st' = false) by reflexivity.
  assert (Hm : _mipmap_rendered st' = false) by reflexivity.
  assert (Hs : _source_rendered st' = false) by reflexivity.
  clearbody st'. rewrite video_tick_unfold. fold width height.
  unfold check_size. rewrite Hsize. simpl fst. simpl snd. rewrite !Z.eqb_refl.
  simpl negb. cbv iota. rewrite Hflag.
  destruct st'; simpl in *. by subst.
Qed.
End TickProperties.

(** ** Rounding to binary32 away from the subnormal and overflow ranges *)

Lemma digits2_pos_size (p : positive) : digits2_pos p = Pos.size p.
Proof. induction p; simpl; by rewrite ?IHp. Qed.

Lemma digits2_bounds (p : positive) :
  2 ^ (Zpos (digits2_pos p) - 1) <= Zpos p < 2 ^ Zpos (digits2_pos p).
Proof.
  rewrite digits2_pos_size. split.
  - pose proof (Pos.size_le p) as Hle.
    assert (H2 : 2 ^ Zpos (Pos.size p) <= 2 * Zpos p).
    { rewrite <- Pos2Z.inj_pow. change (2 * Zpos p) with (Zpos p~0). by apply Pos2Z.pos_le_pos. }
    replace (Zpos (Pos.size p)) with (Zpos (Pos.size p) - 1 + 1) in H2 by lia.
    rewrite Z.pow_add_r in H2 by lia. lia.
  - pose proof (Pos.size_gt p) as Hgt. rewrite <- Pos2Z.inj_pow. by apply Pos2Z.pos_lt_pos.
Qed.

Lemma digits2_le (p : positive) (d : Z) : Zpos p < 2 ^ d -> Zpos (digits2_pos p) <= d.
Proof.
  intros Hlt. destruct (digits2_bounds p) as [Hlo _].
  destruct (Z.le_gt_cases (Zpos (digits2_pos p)) d) as [|Hgt]; [done|].
  assert (2 ^ d <= 2 ^ (Zpos (digits2_pos p) - 1)).
  { destruct (Z.le_gt_cases 0 d); [apply Z.pow_le_mono_r; lia|].
    rewrite (Z.pow_neg_r 2 d) by lia. apply Z.pow_nonneg. lia. }
  lia.
Qed.

Lemma shr_1_m (mrs : shr_record) : 0 <= shr_m mrs -> shr_m (shr_1 mrs) = shr_m mrs / 2.
Proof.
  destruct mrs as [m r s]. simpl. intros Hm.
  rewrite <- Z.div2_div. by destruct m as [|[p|p|]|].
Qed.

Lemma iter_shr_1_m (n : positive) (mrs : shr_record) :
  0 <= shr_m mrs -> shr_m (SpecFloat.iter_pos shr_1 n mrs) = shr_m mrs / 2 ^ Zpos n.
Proof.
  revert mrs. induction n as [n IH|n IH|]; intros mrs Hm; simpl.
  - assert (H1 : 0 <= shr_m (shr_1 mrs)).
    { rewrite shr_1_m by done. by apply Z.div_pos. }
    assert (H2 : 0 <= shr_m (SpecFloat.iter_pos shr_1 n (shr_1 mrs))).
    { rewrite IH by done. apply Z.div_pos; [done|]. by apply Z.pow_pos_nonneg. }
    rewrite IH, IH, shr_1_m by done.
    rewrite !Z.div_div by (try apply Z.pow_pos_nonneg; lia).
    f_equal. rewrite Pos2Z.inj_xI, Z.pow_add_r, Z.pow_mul_r by lia.
    change (2 ^ 2) with 4. change (2 ^ 1) with 2. rewrite <- Z.pow_twice_r.
    rewrite Z.pow_mul_r by lia. change (2 ^ 2) with 4. lia.
  - assert (H2 : 0 <= shr_m (SpecFloat.iter_pos shr_1 n mrs)).
    { rewrite IH by done. apply Z.div_pos; [done|]. by apply Z.pow_pos_nonneg. }
    rewrite IH, IH by done.
    rewrite !Z.div_div by (try apply Z.pow_pos_nonneg; lia).
    f_equal. rewrite Pos2Z.inj_xO, <- Z.pow_add_r by lia. f_equal. lia.
  - rewrite shr_1_m by done. reflexivity.
Qed.

Lemma shr_record_of_loc_m (m : Z) (l : location) : shr_m (shr_record_of_loc m l) = m.
Proof. by destruct l as [|[| |]]. Qed.

(** A right shift by [fexp] on a positive mantissa, for an exponent that is
    not below the least one: the mantissa loses the digits above 24. *)
Lemma shr_fexp_32 (m : positive) (e : Z) (l : location) :
  -149 <= e ->
  let k := Z.max 0 (Zpos (digits2_pos m) - 24) in
  shr_m (fst (shr_fexp 24 128 (Zpos m) e l)) = Zpos m / 2 ^ k
  /\ snd (shr_fexp 24 128 (Zpos m) e l) = e + k.
Proof.
  intros He k. unfold shr_fexp, shr, fexp, emin. simpl Zdigits2.
  assert (Hk : Z.max (Zpos (digits2_pos m) + e - 24) (3 - 128 - 24) - e = k \/
               (Z.max (Zpos (digits2_pos m) + e - 24) (3 - 128 - 24) - e <= 0 /\ k = 0))
    by lia.
  destruct (Z.max (Zpos (digits2_pos m) + e - 24) (3 - 128 - 24) - e) as [|p|p] eqn:E.
  - assert (k = 0) as -> by lia. simpl. rewrite shr_record_of_loc_m, Z.div_1_r. lia.
  - assert (k = Zpos p) as -> by lia. simpl.
    rewrite iter_shr_1_m by (rewrite shr_record_of_loc_m; lia).
    by rewrite shr_record_of_loc_m.
  - assert (k = 0) as -> by lia. simpl. rewrite shr_record_of_loc_m, Z.div_1_r. lia.
Qed.

Lemma round_nearest_even_bounds (m : Z) (l : location) :
  m <= round_nearest_even m l <= m + 1.
Proof.
  unfold round_nearest_even. destruct l as [|[| |]]; try lia.
  destruct (Z.even m); lia.
Qed.

Lemma div_pow2_bounds (p : positive) (k : Z) :
  0 <= k < Zpos (digits2_pos p) ->
  1 <= Zpos p / 2 ^ k < 2 ^ (Zpos (digits2_pos p) - k).
Proof.
  intros Hk. destruct (digits2_bounds p) as [Hlo Hhi].
  assert (Hpos : 0 < 2 ^ k) by (apply Z.pow_pos_nonneg; lia).
  split.
  - apply Z.div_le_lower_bound; [done|]. rewrite Z.mul_1_r.
    etrans; [|exact Hlo]. apply Z.pow_le_mono_r; lia.
  - apply Z.div_lt_upper_bound; [done|].
    rewrite <- Z.pow_add_r by lia. by replace (k + (Zpos (digits2_pos p) - k))
      with (Zpos (digits2_pos p)) by lia.
Qed.

(** Rounding a positive mantissa whose exponent is within reach gives a
    finite, non-zero binary32 number of the same sign. *)
Lemma binary_round_aux_finite (s : bool) (m : positive) (e : Z) (l : location) :
  -149 <= e ->
  e + Z.max 0 (Zpos (digits2_pos m) - 24) + 1 <= 104 ->
  exists m' e',
    binary_round_aux 24 128 s (Zpos m) e l = S754_finite s m' e'
    /\ Zpos m' < 2 ^ 24
    /\ e <= e' <= e + Z.max 0 (Zpos (digits2_pos m) - 24) + 1.
Proof.
  intros He Hmax. unfold binary_round_aux.
  destruct (shr_fexp_32 m e l He) as [Hm1 He1]. cbv zeta in Hm1, He1.
  destruct (shr_fexp 24 128 (Zpos m) e l) as [mrs1 e1]. simpl in Hm1, He1.
  set (k1 := Z.max 0 (Zpos (digits2_pos m) - 24)) in *.
  assert (Hk1 : 0 <= k1 < Zpos (digits2_pos m)) by lia.
  destruct (div_pow2_bounds m k1 Hk1) as [Hlo1 Hhi1]. rewrite <- Hm1 in Hlo1, Hhi1.
  assert (Hhi1' : shr_m mrs1 < 2 ^ 24).
  { eapply Z.lt_le_trans; [exact Hhi1|]. apply Z.pow_le_mono_r; lia. }
  pose proof (round_nearest_even_bounds (shr_m mrs1) (loc_of_shr_record mrs1)) as Hr.
  destruct (round_nearest_even (shr_m mrs1) (loc_of_shr_record mrs1)) as [|m2|m2] eqn:E2;
    [lia| |lia].
  assert (He1' : -149 <= e1) by lia.
  destruct (shr_fexp_32 m2 e1 loc_Exact He1') as [Hm3 He3]. cbv zeta in Hm3, He3.
  destruct (shr_fexp 24 128 (Zpos m2) e1 loc_Exact) as [mrs3 e3]. simpl in Hm3, He3.
  assert (Hd2 : Zpos (digits2_pos m2) <= 25).
  { apply digits2_le. change (2 ^ 25) with (2 * 2 ^ 24). lia. }
  set (k2 := Z.max 0 (Zpos (digits2_pos m2) - 24)) in *.
  assert (Hk2 : 0 <= k2 < Zpos (digits2_pos m2)) by lia.
  destruct (div_pow2_bounds m2 k2 Hk2) as [Hlo3 Hhi3]. rewrite <- Hm3 in Hlo3, Hhi3.
  assert (Hhi3' : shr_m mrs3 < 2 ^ 24).
  { eapply Z.lt_le_trans; [exact Hhi3|]. apply Z.pow_le_mono_r; lia. }
  destruct (shr_m mrs3) as [|m3|m3]; [lia| |lia].
  assert (Hfit : (e3 <=? 128 - 24) = true) by lia. rewrite Hfit.
  exists m3, e3. split; [reflexivity|]. split; [done|]. lia.
Qed.

Lemma iter_xO_pow2 (p n : positive) : Zpos (Pos.iter xO p n) = Zpos p * 2 ^ Zpos n.
Proof.
  induction n as [|n IH] using Pos.peano_ind.
  - simpl. lia.
  - rewrite Pos.iter_succ, Pos2Z.inj_xO, IH, Pos2Z.inj_succ, Z.pow_succ_r by lia. lia.
Qed.

(** The conversion of a positive 32-bit integer to binary32 is a finite,
    positive, non-zero number. *)
Lemma Float32_of_Z_finite (n : Z) :
  0 < n < 2 ^ 32 ->
  exists m e, Float32.of_Z n = S754_finite false m e /\ Zpos m < 2 ^ 24 /\ -23 <= e <= 9.
Proof.
  intros Hn. destruct n as [|p|p]; [lia| |lia].
  unfold Float32.of_Z, binary_normalize, binary_round, Float32.prec, Float32.emax.
  destruct (digits2_bounds p) as [Hlo Hhi].
  assert (Hd : 1 <= Zpos (digits2_pos p) <= 32).
  { split; [lia|]. apply digits2_le, Hn. }
  unfold shl_align, fexp, emin.
  replace (Z.max (Zpos (digits2_pos p) + 0 - 24) (3 - 128 - 24) - 0)
    with (Zpos (digits2_pos p) - 24) by lia.
  destruct (Zpos (digits2_pos p) - 24) as [|k|k] eqn:Ek.
  - destruct (binary_round_aux_finite false p 0 loc_Exact) as (m' & e' & Hr & Hm & He);
      [lia..|]. exists m', e'. split; [exact Hr|]. split; [done|]. lia.
  - destruct (binary_round_aux_finite false p 0 loc_Exact) as (m' & e' & Hr & Hm & He);
      [lia..|]. exists m', e'. split; [exact Hr|]. split; [done|]. lia.
  - assert (Hk : Zpos k = 24 - Zpos (digits2_pos p)) by lia.
    assert (Hmz : Zpos (Pos.iter xO p k) < 2 ^ 24).
    { rewrite iter_xO_pow2, Hk.
      replace 24 with (Zpos (digits2_pos p) + (24 - Zpos (digits2_pos p))) at 2 by lia.
      rewrite Z.pow_add_r by lia. apply Z.mul_lt_mono_pos_r; [|done].
      apply Z.pow_pos_nonneg; lia. }
    pose proof (digits2_le _ _ Hmz) as Hdz.
    replace (Z.max (Zpos (digits2_pos p) + 0 - 24) (3 - 128 - 24))
      with (Zpos (digits2_pos p) - 24) by lia.
    destruct (binary_round_aux_finite false (Pos.iter xO p k) (Zpos (digits2_pos p) - 24)
                loc_Exact) as (m' & e' & Hr & Hm & He); [lia..|].
    exists m', e'. split; [exact Hr|]. split; [done|]. lia.
Qed.

(** The quotient of two such numbers is a finite, positive, non-zero
    number. *)
Lemma Float32_div_finite (m1 m2 : positive) (e1 e2 : Z) :
  Zpos m1 < 2 ^ 24 -> Zpos m2 < 2 ^ 24 -> -23 <= e1 <= 9 -> -23 <= e2 <= 9 ->
  exists m e,
    Float32.div (S754_finite false m1 e1) (S754_finite false m2 e2) = S754_finite false m e.
Proof.
  intros Hm1 Hm2 He1 He2.
  unfold Float32.div, SFdiv, SFdiv_core_binary, Float32.prec, Float32.emax. simpl Zdigits2.
  pose proof (digits2_le _ _ Hm1) as Hd1. pose proof (digits2_le _ _ Hm2) as Hd2.
  destruct (digits2_bounds m1) as [Hlo1 Hhi1]. destruct (digits2_bounds m2) as [Hlo2 Hhi2].
  set (d1 := Zpos (digits2_pos m1)) in *. set (d2 := Zpos (digits2_pos m2)) in *.
  assert (Hd1' : 1 <= d1) by (subst d1; lia). assert (Hd2' : 1 <= d2) by (subst d2; lia).
  unfold fexp, emin.
  replace (Z.min (Z.max (d1 + e1 - (d2 + e2) - 24) (3 - 128 - 24)) (e1 - e2))
    with (d1 + e1 - (d2 + e2) - 24) by lia.
  replace (e1 - e2 - (d1 + e1 - (d2 + e2) - 24)) with (d2 - d1 + 24) by lia.
  destruct (d2 - d1 + 24) as [|s|s] eqn:Es; [lia| |lia].
  rewrite Z.shiftl_mul_pow2 by lia.
  pose proof (Z.div_eucl_eq (Zpos m1 * 2 ^ Zpos s) (Zpos m2) ltac:(lia)) as Heq.
  pose proof (Z.mod_pos_bound (Zpos m1 * 2 ^ Zpos s) (Zpos m2) ltac:(lia)) as Hmod.
  unfold Z.modulo in Hmod.
  destruct (Z.div_eucl (Zpos m1 * 2 ^ Zpos s) (Zpos m2)) as [q r].
  assert (Hnum_lo : 2 ^ (d2 + 23) <= Zpos m1 * 2 ^ Zpos s).
  { replace (d2 + 23) with (d1 - 1 + Zpos s) by lia. rewrite Z.pow_add_r by lia.
    apply Z.mul_le_mono_nonneg_r; [apply Z.pow_nonneg; lia|done]. }
  assert (Hnum_hi : Zpos m1 * 2 ^ Zpos s < 2 ^ (d2 + 24)).
  { replace (d2 + 24) with (d1 + Zpos s) by lia. rewrite Z.pow_add_r by lia.
    apply Z.mul_lt_mono_pos_r; [apply Z.pow_pos_nonneg; lia|done]. }
  assert (Hpow : 2 ^ (d2 + 23) = 2 ^ d2 * 2 ^ 23) by (rewrite <- Z.pow_add_r; lia).
  assert (Hpow' : 2 ^ (d2 + 24) = 2 ^ (d2 - 1) * 2 ^ 25).
  { rewrite <- Z.pow_add_r by lia. f_equal. lia. }
  assert (Hq_lo : 1 <= q) by nia.
  assert (Hq_hi : q < 2 ^ 25) by nia.
  destruct q as [|q|q]; [lia| |lia].
  pose proof (digits2_le _ _ Hq_hi) as Hdq.
  destruct (binary_round_aux_finite (xorb false false) q (d1 + e1 - (d2 + e2) - 24)
              (new_location (Zpos m2) r)) as (m' & e' & Hr & _); [lia..|].
  by exists m', e'.
Qed.

(** X9.  For every size that a target can report, the dimensions after
    the zero check convert to finite non-zero numbers and the aspect ratio of the
    mesh is a finite, positive, non-zero number: the division neither
    divides by zero nor gives a zero, an infinity or a NaN. *)
Theorem aspect_ratio_finite (st : transform_instance) (width height : Z) :
  0 <= width < 2 ^ 32 -> 0 <= height < 2 ^ 32 ->
  let width' := if width =? 0 then 1 else width in
  let height' := if height =? 0 then 1 else height in
  (exists m e, Float32.of_Z width' = S754_finite false m e)
  /\ (exists m e, Float32.of_Z height' = S754_finite false m e)
  /\ (exists m e, Float32.div (Float32.of_Z width') (Float32.of_Z height') =
                  S754_finite false m e)
  /\ (exists m e, aspect_ratio st width' height' = S754_finite false m e).
Proof.
  intros Hw Hh width' height'.
  assert (Hw' : 0 < width' < 2 ^ 32).
  { subst width'. destruct (Z.eqb_spec width 0); lia. }
  assert (Hh' : 0 < height' < 2 ^ 32).
  { subst height'. destruct (Z.eqb_spec height 0); lia. }
  destruct (Float32_of_Z_finite width' Hw') as (m1 & e1 & Hx & Hm1 & He1).
  destruct (Float32_of_Z_finite height' Hh') as (m2 & e2 & Hy & Hm2 & He2).
  destruct (Float32_div_finite m1 m2 e1 e2 Hm1 Hm2 He1 He2) as (m & e & Hdiv).
  split; [by eauto|]. split; [by eauto|].
  assert (Hq : exists m e, Float32.div (Float32.of_Z width') (Float32.of_Z height') =
                           S754_finite false m e).
  { rewrite Hx, Hy. eauto. }
  split; [exact Hq|].
  unfold aspect_ratio. destruct (_camera_orthographic st); [|exact Hq].
  by exists 8388608%positive, (-23).
Qed.

Lemma aspect_ratio_finite_witness :
  0 <= 0 < 2 ^ 32 /\ 0 <= 600 < 2 ^ 32
  /\ exists m e, Float32.div (Float32.of_Z 1) (Float32.of_Z 600) = S754_finite false m e.
Proof.
  assert (Hw : 0 <= 0 < 2 ^ 32) by (simpl; lia).
  assert (Hh : 0 <= 600 < 2 ^ 32) by (simpl; lia).
  split; [exact Hw|]. split; [exact Hh|].
  pose proof (aspect_ratio_finite example_instance 0 600 Hw Hh) as Hfinite.
  cbv zeta in Hfinite. destruct Hfinite as (_ & _ & Hdiv & _). exact Hdiv.
Defined.

(** ** The render pass: what it leaves alone *)

Lemma keeps_static_ret {A} (a : A) : keeps_static (mret a).
Proof. by intros st. Qed.

Lemma keeps_static_call c : keeps_static (call c).
Proof. by intros st. Qed.

Lemma keeps_static_get : keeps_static get_instance.
Proof. by intros st. Qed.

Lemma keeps_static_return : keeps_static return_now.
Proof. by intros st. Qed.

Lemma keeps_static_assign f :
  (forall st, static_part (f st) = static_part st) -> keeps_static (assign f).
Proof. intros Hf st. apply Hf. Qed.

Lemma keeps_static_bind {A B} (m : render A) (k : A -> render B) :
  keeps_static m -> (forall a, keeps_static (k a)) -> keeps_static (m ≫= k).
Proof.
  intros Hm Hk st. specialize (Hm st). unfold mbind, render_bind.
  destruct (m st) as [[[a|] st1] c1]; simpl in *; [|done].
  specialize (Hk a st1). destruct (k a st1) as [[r st2] c2]. simpl in *. congruence.
Qed.

Lemma keeps_static_when b m : keeps_static m -> keeps_static (when b m).
Proof. intros Hm. destruct b; [done|apply keeps_static_ret]. Qed.

Lemma keeps_static_skip : keeps_static skip_and_return.
Proof.
  apply keeps_static_bind; [apply keeps_static_call|intros _; apply keeps_static_return].
Qed.

Lemma calls_satisfy_ret {A} P (a : A) : calls_satisfy P (mret a).
Proof. intros st. constructor. Qed.

Lemma calls_satisfy_call (P : gs_call -> Prop) c : P c -> calls_satisfy P (call c).
Proof. intros Hc st. by repeat constructor. Qed.

Lemma calls_satisfy_get P : calls_satisfy P get_instance.
Proof. intros st. constructor. Qed.

Lemma calls_satisfy_return P : calls_satisfy P return_now.
Proof. intros st. constructor. Qed.

Lemma calls_satisfy_assign P f : calls_satisfy P (assign f).
Proof. intros st. constructor. Qed.

Lemma calls_satisfy_bind {A B} P (m : render A) (k : A -> render B) :
  calls_satisfy P m -> (forall a, calls_satisfy P (k a)) -> calls_satisfy P (m ≫= k).
Proof.
  intros Hm Hk st. specialize (Hm st). unfold mbind, render_bind.
  destruct (m st) as [[[a|] st1] c1]; simpl in *; [|done].
  specialize (Hk a st1). destruct (k a st1) as [[r st2] c2]. simpl in *.
  by apply Forall_app.
Qed.

Lemma calls_satisfy_when P b m : calls_satisfy P m -> calls_satisfy P (when b m).
Proof. intros Hm. destruct b; [done|apply calls_satisfy_ret]. Qed.

Ltac keeps_static_step :=
  first [ apply keeps_static_skip | apply keeps_static_ret | apply keeps_static_call
        | apply keeps_static_get | apply keeps_static_return
        | apply keeps_static_assign; intros ?; reflexivity
        | apply keeps_static_when
        | apply keeps_static_bind; [|intros ?]
        | match goal with
          | |- keeps_static (let '(_, _) := ?p in _) => destruct p
          | |- keeps_static (if ?b then _ else _) => destruct b
          end ].

Lemma video_render_static (host : host_frame) : keeps_static (video_render host).
Proof. unfold video_render. repeat keeps_static_step. Qed.

(** X10.  On every path, early returns included, the render pass leaves
    the transform parameters, the stored source size, the mesh and its
    dirty flag as they were, and it never sets the flag
    [_source_rendered]: it writes the two other rendered flags and the
    texture handles only. *)
Theorem video_render_keeps_static (host : host_frame) (st : transform_instance) :
  let st' := snd (fst (video_render host st)) in
  parameters st' = parameters st
  /\ _source_size st' = _source_size st
  /\ _vertex_buffer st' = _vertex_buffer st
  /\ _update_mesh st' = _update_mesh st
  /\ _source_rendered st' = _source_rendered st.
Proof.
  pose proof (video_render_static host st) as Hk. cbv zeta.
  pose proof (f_equal (fun p => fst (fst (fst (fst p)))) Hk) as H1.
  pose proof (f_equal (fun p => snd (fst (fst (fst p)))) Hk) as H2.
  pose proof (f_equal (fun p => snd (fst (fst p))) Hk) as H3.
  pose proof (f_equal (fun p => snd (fst p)) Hk) as H4.
  pose proof (f_equal snd Hk) as H5.
  auto.
Qed.

(** X11.  Without a parent, without a target, or with a target of zero
    width or height, the render pass only signals skip and leaves the
    instance as it is. *)
Theorem video_render_invalid_frame (host : host_frame) (st : transform_instance) :
  frame_parent host = false
  \/ frame_target host = None
  \/ (exists w h, frame_target host = Some (w, h) /\ (w = 0 \/ h = 0)) ->
  video_render host st = (Return, st, [obs_source_skip_video_filter]).
Proof.
  intros Hbad. unfold video_render.
  match goal with
  | |- (when ?c _ ≫= _) st = _ => assert (Hc : c = true)
  end.
  { destruct Hbad as [Hp|[Ht|(w & h & Ht & [->| ->])]].
    - rewrite Hp. simpl. by rewrite !orb_true_r.
    - rewrite Ht. reflexivity.
    - rewrite Ht. reflexivity.
    - rewrite Ht. simpl. by rewrite orb_true_r. }
  rewrite Hc. by repeat render_step.
Qed.

Lemma video_render_invalid_frame_witness :
  frame_parent frame_without_parent = false
  /\ video_render frame_without_parent example_instance =
     (Return, example_instance, [obs_source_skip_video_filter]).
Proof.
  assert (Hp : frame_parent frame_without_parent = false) by reflexivity.
  split; [exact Hp|].
  exact (video_render_invalid_frame frame_without_parent example_instance (or_introl Hp)).
Defined.

(** X12.  Once the capture is marked done, a render pass neither binds the
    capture surface nor calls the capture hook again, whatever the frame
    is. *)
Theorem video_render_capture_once (host : host_frame) (st : transform_instance) :
  _cache_rendered st = true ->
  Forall (fun c => is_capture_call c = false) (snd (video_render host st)).
Proof.
  intros Hdone. unfold video_render.
  match goal with
  | |- Forall _ (snd ((when ?c _ ≫= _) st)) => destruct c
  end.
  { repeat render_step. by repeat constructor. }
  do 3 render_step.
  destruct (cache_size (_mipmap_enabled st) _ _) as [cw ch].
  rewrite Hdone. simpl negb. do 2 render_step.
  match goal with
  | |- Forall ?P (snd (?m st)) => enough (calls_satisfy P m) as Hm by apply Hm
  end.
  repeat first [ apply calls_satisfy_ret | apply calls_satisfy_get
               | apply calls_satisfy_return | apply calls_satisfy_assign
               | apply calls_satisfy_call;
                 first [ reflexivity
                       | unfold projection; by destruct (_camera_orthographic _) ]
               | apply calls_satisfy_when
               | apply calls_satisfy_bind; [|intros ?]
               | match goal with
                 | |- calls_satisfy _ (if ?b then _ else _) => destruct b
                 end ].
Qed.

Lemma video_render_capture_once_witness :
  _cache_rendered captured_instance = true
  /\ Forall (fun c => is_capture_call c = false)
            (snd (video_render frame_with_textures captured_instance)).
Proof.
  assert (Hdone : _cache_rendered captured_instance = true) by reflexivity.
  split; [exact Hdone|].
  exact (video_render_capture_once frame_with_textures captured_instance Hdone).
Defined.

(** X13.  Without mipmapping, a pass whose capture begins and whose render
    targets hand out textures runs the stages in order at the native size:
    capture, then transform and projection of the mesh sampled from the
    captured texture, then the final sprite; it marks the capture done and
    stores the two texture handles. *)
Theorem video_render_plain (host : host_frame) (st : transform_instance) (w h : Z)
  (captured drawn : texture) :
  frame_parent host = true -> frame_target host = Some (w, h) -> w <> 0 -> h <> 0 ->
  _mipmap_enabled st = false -> _cache_rendered st = false ->
  frame_filter_begin host = true ->
  frame_cache_texture host = Some captured -> frame_source_texture host = Some drawn ->
  video_render host st =
  (Next tt,
   set_source_texture (Some drawn)
     (set_cache_texture (Some captured) (set_cache_rendered true st)),
   [ cache_rt_render w h;
     gs_ortho Float32.zero (Float32.of_Z w) Float32.zero (Float32.of_Z h)
              (Float32.of_Z (-1)) Float32.one;
     obs_source_process_filter_begin;
     obs_source_process_filter_end w h;
     source_rt_render w h;
     projection st w h;
     gs_draw_tristrip (_vertex_buffer st) (Some captured);
     gs_draw_sprite (Some drawn) w h ]).
Proof.
  intros Hp Ht Hw Hh Hmip Hc Hb Hcap Hsrc. render_enter Hp Ht Hw Hh.
  rewrite Hmip. change (cache_size false w h) with (w, h). cbv iota beta.
  rewrite Hc, Hb, Hcap, Hsrc. simpl negb.
  repeat render_step. simpl. rewrite Hmip. simpl.
  repeat render_step. simpl. rewrite Hmip. reflexivity.
Qed.

Lemma video_render_plain_witness :
  _mipmap_enabled example_instance = false
  /\ _cache_rendered example_instance = false
  /\ video_render frame_with_textures example_instance =
     (Next tt,
      set_source_texture (Some (Texture 1920 1080 1))
        (set_cache_texture (Some (Texture 1920 1080 1))
           (set_cache_rendered true example_instance)),
      [ cache_rt_render 1920 1080;
        gs_ortho Float32.zero (Float32.of_Z 1920) Float32.zero (Float32.of_Z 1080)
                 (Float32.of_Z (-1)) Float32.one;
        obs_source_process_filter_begin;
        obs_source_process_filter_end 1920 1080;
        source_rt_render 1920 1080;
        projection example_instance 1920 1080;
        gs_draw_tristrip (_vertex_buffer example_instance) (Some (Texture 1920 1080 1));
        gs_draw_sprite (Some (Texture 1920 1080 1)) 1920 1080 ]).
Proof.
  assert (Hmip : _mipmap_enabled example_instance = false) by (vm_compute; reflexivity).
  assert (Hc : _cache_rendered example_instance = false) by (vm_compute; reflexivity).
  assert (Hw : 1920 <> 0) by discriminate. assert (Hh : 1080 <> 0) by discriminate.
  split; [exact Hmip|]. split; [exact Hc|].
  exact (video_render_plain frame_with_textures example_instance 1920 1080
           (Texture 1920 1080 1) (Texture 1920 1080 1)
           eq_refl eq_refl Hw Hh Hmip Hc eq_refl eq_refl eq_refl).
Defined.

(** X14.  With mipmapping, the mipmap texture is created only when there
    is none or its size differs from the cache size; the chain is rebuilt
    from the captured texture on every such pass; afterwards the instance
    holds a mipmap texture of the cache size, and the mesh is drawn from
    it. *)
Theorem video_render_mipmapped (host : host_frame) (st : transform_instance) (w h : Z)
  (captured drawn : texture) :
  frame_parent host = true -> frame_target host = Some (w, h) -> w <> 0 -> h <> 0 ->
  _mipmap_enabled st = true -> _cache_rendered st = false ->
  frame_filter_begin host = true ->
  frame_cache_texture host = Some captured -> frame_source_texture host = Some drawn ->
  let cache_width := fst (cache_size true w h) in
  let cache_height := snd (cache_size true w h) in
  let levels := to_uint32 (Z.max (get_power_of_two_exponent_ceil cache_width)
                                 (get_power_of_two_exponent_ceil cache_height)) in
  let reuse := match _mipmap_texture st with
               | Some t => (get_width t =? cache_width) && (get_height t =? cache_height)
               | None => false
               end in
  let mipmap := if reuse then _mipmap_texture st
                else Some (Texture cache_width cache_height levels) in
  let st' := snd (fst (video_render host st)) in
  fst (fst (video_render host st)) = Next tt
  /\ snd (video_render host st) =
     [ cache_rt_render cache_width cache_height;
       gs_ortho Float32.zero (Float32.of_Z w) Float32.zero (Float32.of_Z h)
                (Float32.of_Z (-1)) Float32.one;
       obs_source_process_filter_begin;
       obs_source_process_filter_end w h ]
     ++ (if reuse then [] else [mipmap_texture_create cache_width cache_height levels])
     ++ [ mipmapper_rebuild (Some captured) mipmap;
          source_rt_render w h;
          projection st w h;
          gs_draw_tristrip (_vertex_buffer st) mipmap;
          gs_draw_sprite (Some drawn) w h ]
  /\ _mipmap_texture st' = mipmap
  /\ (exists t, mipmap = Some t /\ get_width t = cache_width /\ get_height t = cache_height)
  /\ _mipmap_rendered st' = true /\ _cache_rendered st' = true
  /\ _cache_texture st' = Some captured /\ _source_texture st' = Some drawn.
Proof.
  intros Hp Ht Hw Hh Hmip Hc Hb Hcap Hsrc cache_width cache_height levels reuse mipmap.
  assert (Htex : exists t, mipmap = Some t /\ get_width t = cache_width
                           /\ get_height t = cache_height).
  { subst mipmap reuse. destruct (_mipmap_texture st) as [t|]; [|by eexists].
    destruct (Z.eqb_spec (get_width t) cache_width);
      destruct (Z.eqb_spec (get_height t) cache_height); simpl; by eexists. }
  cbv zeta. render_enter Hp Ht Hw Hh. rewrite Hmip.
  subst mipmap reuse levels cache_width cache_height.
  destruct (cache_size true w h) as [cw ch]. simpl fst in *. simpl snd in *.
  rewrite Hc, Hb, Hcap, Hsrc. simpl negb.
  repeat render_step. simpl. rewrite Hmip. simpl.
  repeat render_step. simpl.
  destruct (_mipmap_texture st) as [t|] eqn:Et; simpl.
  - destruct (get_width t =? cw); destruct (get_height t =? ch); simpl;
      repeat render_step; simpl; rewrite ?Hmip, ?Et; simpl; repeat render_step; simpl;
      rewrite ?Hmip, ?Et; simpl; repeat split; try done; by eexists.
  - repeat render_step; simpl; rewrite ?Hmip; simpl; repeat render_step; simpl;
      rewrite ?Hmip; simpl; repeat split; try done; by eexists.
Qed.

Lemma video_render_mipmapped_witness :
  _mipmap_enabled mipmapped_instance = true
  /\ _cache_rendered mipmapped_instance = false
  /\ cache_size true 1920 1080 = (2048, 2048)
  /\ exists t,
      _mipmap_texture (snd (fst (video_render frame_with_textures mipmapped_instance))) = Some t
      /\ get_width t = fst (cache_size true 1920 1080)
      /\ get_height t = snd (cache_size true 1920 1080).
Proof.
  assert (Hmip : _mipmap_enabled mipmapped_instance = true) by (vm_compute; reflexivity).
  assert (Hc : _cache_rendered mipmapped_instance = false) by (vm_compute; reflexivity).
  assert (Hw : 1920 <> 0) by discriminate. assert (Hh : 1080 <> 0) by discriminate.
  split; [exact Hmip|]. split; [exact Hc|]. split; [vm_compute; reflexivity|].
  pose proof (video_render_mipmapped frame_with_textures mipmapped_instance 1920 1080
                (Texture 1920 1080 1) (Texture 1920 1080 1)
                eq_refl eq_refl Hw Hh Hmip Hc eq_refl eq_refl eq_refl) as Hpass.
  cbv zeta in Hpass. destruct Hpass as (_ & _ & Hm & (t & Ht & Hwidth & Hheight) & _).
  exists t. split; [by rewrite Hm|]. by split.
Defined.

(** X15.  Once the capture is marked done, a pass on a frame whose render
    targets hand out textures skips the capture stage only: with
    mipmapping and a mipmap texture of the cache size it rebuilds the
    mipmap chain again without creating a texture, and in either case it
    transforms the mesh again and draws the final sprite.  No stage but
    the capture is guarded by a rendered flag. *)
Theorem video_render_after_capture (host : host_frame) (st : transform_instance) (w h : Z)
  (captured drawn : texture) :
  frame_parent host = true -> frame_target host = Some (w, h) -> w <> 0 -> h <> 0 ->
  _cache_rendered st = true ->
  frame_cache_texture host = Some captured -> frame_source_texture host = Some drawn ->
  (_mipmap_enabled st = true ->
   exists t, _mipmap_texture st = Some t
             /\ get_width t = fst (cache_size true w h)
             /\ get_height t = snd (cache_size true w h)) ->
  let image := if _mipmap_enabled st then _mipmap_texture st else Some captured in
  video_render host st =
  (Next tt,
   set_source_texture (Some drawn)
     ((if _mipmap_enabled st then set_mipmap_rendered true else id)
        (set_cache_texture (Some captured) st)),
   (if _mipmap_enabled st
    then [mipmapper_rebuild (Some captured) (_mipmap_texture st)] else [])
   ++ [ source_rt_render w h;
        projection st w h;
        gs_draw_tristrip (_vertex_buffer st) image;
        gs_draw_sprite (Some drawn) w h ]).
Proof.
  intros Hp Ht Hw Hh Hdone Hcap Hsrc Hmipmap image. subst image.
  render_enter Hp Ht Hw Hh.
  destruct (_mipmap_enabled st) eqn:Hmip.
  - destruct (Hmipmap eq_refl) as (t & Htex & Hwidth & Hheight).
    destruct (cache_size true w h) as [cw ch]. simpl in Hwidth, Hheight.
    rewrite Hdone, Hcap, Hsrc. simpl negb.
    repeat render_step. simpl. rewrite Hmip. simpl.
    repeat render_step. simpl. rewrite Htex. simpl.
    rewrite Hwidth, Hheight, !Z.eqb_refl. simpl.
    repeat render_step. simpl. rewrite ?Hmip, ?Htex. simpl.
    repeat render_step. simpl. rewrite ?Hmip, ?Htex. reflexivity.
  - change (cache_size false w h) with (w, h). cbv iota beta.
    rewrite Hdone, Hcap, Hsrc. simpl negb.
    repeat render_step. simpl. rewrite Hmip. simpl.
    repeat render_step. simpl. rewrite Hmip. reflexivity.
Qed.

Lemma video_render_after_capture_witness :
  _cache_rendered rendered_instance = true
  /\ _mipmap_enabled rendered_instance = true
  /\ (exists t, _mipmap_texture rendered_instance = Some t
                /\ get_width t = fst (cache_size true 1920 1080)
                /\ get_height t = snd (cache_size true 1920 1080))
  /\ fst (fst (video_render frame_with_textures rendered_instance)) = Next tt
  /\ length (snd (video_render frame_with_textures rendered_instance)) = 5%nat.
Proof.
  assert (Hdone : _cache_rendered rendered_instance = true) by (vm_compute; reflexivity).
  assert (Hmip : _mipmap_enabled rendered_instance = true) by (vm_compute; reflexivity).
  assert (Htex : exists t, _mipmap_texture rendered_instance = Some t
                           /\ get_width t = fst (cache_size true 1920 1080)
                           /\ get_height t = snd (cache_size true 1920 1080)).
  { exists (Texture 2048 2048 11). vm_compute. auto. }
  assert (Hw : 1920 <> 0) by discriminate. assert (Hh : 1080 <> 0) by discriminate.
  split; [exact Hdone|]. split; [exact Hmip|]. split; [exact Htex|].
  pose proof (video_render_after_capture frame_with_textures rendered_instance 1920 1080
                (Texture 1920 1080 1) (Texture 1920 1080 1)
                eq_refl eq_refl Hw Hh Hdone eq_refl eq_refl (fun _ => Htex)) as Hpass.
  cbv zeta in Hpass. rewrite Hpass, Hmip. split; reflexivity.
Defined.

(** ** The render pass: how it ends *)

Lemma stage_ret {A} (a : A) : stage_ends_well (mret a).
Proof. intros st. constructor. Qed.

Lemma stage_get : stage_ends_well get_instance.
Proof. intros st. constructor. Qed.

Lemma stage_assign f : stage_ends_well (assign f).
Proof. intros st. constructor. Qed.

Lemma stage_call c : is_final_call c = false -> stage_ends_well (call c).
Proof. intros Hc st. by repeat constructor. Qed.

Lemma stage_skip : stage_ends_well skip_and_return.
Proof. intros st. exists []. by split. Qed.

Lemma stage_bind {A B} (m : render A) (k : A -> render B) :
  stage_ends_well m -> (forall a, stage_ends_well (k a)) -> stage_ends_well (m ≫= k).
Proof.
  intros Hm Hk st. specialize (Hm st). unfold mbind, render_bind.
  destruct (m st) as [[[a|] st1] c1]; [|done].
  specialize (Hk a st1). destruct (k a st1) as [[[b|] st2] c2].
  - by apply Forall_app.
  - destruct Hk as (pre & -> & Hpre). exists (c1 ++ pre).
    split; [by rewrite app_assoc|by apply Forall_app].
Qed.

Lemma stage_when b m : stage_ends_well m -> stage_ends_well (when b m).
Proof. intros Hm. destruct b; [done|apply stage_ret]. Qed.

Lemma pass_bind {A} (m : render A) (k : A -> render unit) :
  stage_ends_well m -> (forall a, pass_ends_well (k a)) -> pass_ends_well (m ≫= k).
Proof.
  intros Hm Hk st. specialize (Hm st). unfold mbind, render_bind.
  destruct (m st) as [[[a|] st1] c1]; [|done].
  specialize (Hk a st1). destruct (k a st1) as [[[b|] st2] c2].
  - destruct Hk as (pre & image & w & h & -> & Hpre). exists (c1 ++ pre), image, w, h.
    split; [by rewrite app_assoc|by apply Forall_app].
  - destruct Hk as (pre & -> & Hpre). exists (c1 ++ pre).
    split; [by rewrite app_assoc|by apply Forall_app].
Qed.

Lemma pass_sprite image w h : pass_ends_well (call (gs_draw_sprite image w h)).
Proof. intros st. exists [], image, w, h. by split. Qed.

Ltac stage_step :=
  first [ apply stage_skip | apply stage_ret | apply stage_get | apply stage_assign
        | apply stage_call;
          first [ reflexivity | unfold projection; by destruct (_camera_orthographic _) ]
        | apply stage_when
        | apply stage_bind; [|intros ?]
        | match goal with
          | |- stage_ends_well (if ?b then _ else _) => destruct b
          end ].

(** X16.  Every render pass ends in one of two ways: it goes through and
    its last call draws the final sprite, or it returns early and its last
    call signals skip.  No other call of the pass is a skip or a sprite:
    the host gets exactly one of the two per pass. *)
Theorem video_render_ends_well (host : host_frame) (st : transform_instance) :
  match video_render host st with
  | (Next _, _, calls) =>
      exists pre image w h, calls = pre ++ [gs_draw_sprite image w h]
                            /\ Forall (fun c => is_final_call c = false) pre
  | (Return, _, calls) =>
      exists pre, calls = pre ++ [obs_source_skip_video_filter]
                  /\ Forall (fun c => is_final_call c = false) pre
  end.
Proof.
  assert (Hpass : pass_ends_well (video_render host)).
  { unfold video_render.
    repeat first [ apply pass_sprite
                 | apply pass_bind; [repeat stage_step|intros ?]
                 | match goal with
                   | |- pass_ends_well (let '(_, _) := ?p in _) => destruct p
                   end ]. }
  apply Hpass.
Qed.

(** ** Reachable instances *)

(** X17.  Every instance that the host can reach (constructed, then
    updated, ticked and rendered in any order) has the four vertices it
    was constructed with, a rotation order in the range of [uint32_t], the
    scale component z equal to 1, the shear component z equal to 0, and
    the flag [_source_rendered] unset: nothing ever sets that flag. *)
Theorem reachable_invariant `{Matrix4Ops} (st : transform_instance) :
  reachable st ->
  length (_vertex_buffer st) = 4%nat
  /\ 0 <= _rotation_order st < 2 ^ 32
  /\ vz (_scale st) = Float32.one
  /\ vz (_shear st) = Float32.zero
  /\ _source_rendered st = false.
Proof.
  assert (Hproj : forall s1 s2, parameters s1 = parameters s2 ->
                                _rotation_order s1 = _rotation_order s2
                                /\ _scale s1 = _scale s2 /\ _shear s1 = _shear s2).
  { intros s1 s2 Hp. split; [exact (f_equal rotation_order Hp)|].
    split; [exact (f_equal param_scale Hp)|exact (f_equal param_shear Hp)]. }
  induction 1 as [data|settings st Hst IH|target st Hst IH|host st Hst IH].
  - split; [reflexivity|]. split; [apply Z.mod_pos_bound; lia|]. repeat split.
  - destruct IH as (Hlen & _ & _ & _ & Hsr). split; [exact Hlen|].
    split; [apply Z.mod_pos_bound; lia|]. split; [reflexivity|]. split; [reflexivity|].
    exact Hsr.
  - pose proof (parameters_video_tick target st) as Hpar.
    pose proof (length_vertex_buffer_video_tick target st) as Hlen.
    destruct IH as (Hl & Hro & Hsc & Hsh & _).
    split; [by rewrite Hlen|].
    destruct (Hproj _ _ Hpar) as (H1 & H2 & H3). rewrite H1, H2, H3.
    split; [exact Hro|]. split; [exact Hsc|]. split; [exact Hsh|]. reflexivity.
  - pose proof (video_render_static host st) as Hk.
    pose proof (f_equal (fun p => fst (fst (fst (fst p)))) Hk) as Hpar.
    pose proof (f_equal (fun p => snd (fst (fst p))) Hk) as Hvb.
    pose proof (f_equal snd Hk) as Hflag.
    simpl in Hpar, Hvb, Hflag.
    destruct IH as (Hl & Hro & Hsc & Hsh & Hsr).
    split; [by rewrite Hvb|].
    destruct (Hproj _ _ Hpar) as (H1 & H2 & H3). rewrite H1, H2, H3, Hflag. auto.
Qed.

Lemma reachable_invariant_witness :
  @reachable translation_ops ticked_instance
  /\ length (_vertex_buffer ticked_instance) = 4%nat
  /\ _source_rendered ticked_instance = false.
Proof.
  assert (Hr : @reachable translation_ops ticked_instance).
  { unfold ticked_instance, example_instance.
    apply (@reachable_tick translation_ops). apply (@reachable_new translation_ops). }
  split; [exact Hr|].
  pose proof (@reachable_invariant translation_ops ticked_instance Hr) as Hinv.
  destruct Hinv as (Hlen & _ & _ & _ & Hsr). split; [exact Hlen|exact Hsr].
Defined.
